(** * Option_Pricer: a shallow embedding of [pricing.py]

    Floats are modelled as real numbers: the embedding is the exact-arithmetic
    idealisation of the IEEE computation.  [np.log], [np.sqrt], [np.exp] are
    [ln], [sqrt], [exp]; [norm.pdf] and [norm.cdf] (scipy.stats) are the
    standard normal density [norm_pdf] and its distribution function
    [norm_cdf], defined below as [1/2 + integral from 0 to x of the density].
    Python exceptions are values of [exn], raised through the result type
    [pyres]; [option_type] and [model] are the Python strings.

    Rocq's [ln], [sqrt] and [/] are total: [ln x = 0] for [x <= 0],
    [sqrt x = 0] for [x < 0], [x / 0 = 0], where numpy gives [nan] or [inf].
    The pricing and Greek formulas therefore agree with numpy for
    [S / K > 0], [T > 0] and [sigma > 0]; results stated outside that domain
    are ones that hold for numpy's values as well (an exception raised first,
    or both sides computed alike).  Python's own [S / K] on floats does raise
    [ZeroDivisionError], modelled by [py_div]. *)

From Stdlib Require Import Reals Lra Lia String ZArith List.
From Stdlib Require Import Ranalysis5 ClassicalEpsilon.
Import ListNotations.
Open Scope string_scope.
Open Scope R_scope.

(* ------------------------------------------------------------------ *)
(** ** The standard normal distribution (scipy.stats.norm) *)

(** [norm.pdf] *)
Definition norm_pdf (x : R) : R := exp (- (x * x) / 2) / sqrt (2 * PI).

Lemma norm_pdf_derivable_lim (x : R) :
  derivable_pt_lim norm_pdf x (- x * norm_pdf x).
Proof.
  unfold norm_pdf.
  replace (- x * (exp (- (x * x) / 2) / sqrt (2 * PI)))
    with ((exp (- (x * x) / 2) * (- (1 + 1) * x / 2)) * / sqrt (2 * PI))
    by (field; apply Rgt_not_eq, sqrt_lt_R0; pose proof PI_RGT_0; lra).
  apply derivable_pt_lim_scal_right.
  apply (derivable_pt_lim_comp (fun y => - (y * y) / 2) exp).
  - replace (- (1 + 1) * x / 2) with (- (1 * x + x * 1) * / 2) by field.
    apply derivable_pt_lim_scal_right.
    apply derivable_pt_lim_opp.
    apply derivable_pt_lim_mult; apply derivable_pt_lim_id.
  - apply derivable_pt_lim_exp.
Qed.

Lemma norm_pdf_continuous : continuity norm_pdf.
Proof.
  intro x. apply derivable_continuous_pt.
  exists (- x * norm_pdf x). apply norm_pdf_derivable_lim.
Qed.

Lemma norm_pdf_pos (x : R) : 0 < norm_pdf x.
Proof.
  unfold norm_pdf. apply Rdiv_lt_0_compat; [apply exp_pos|].
  apply sqrt_lt_R0. pose proof PI_RGT_0. lra.
Qed.

Lemma norm_pdf_even (x : R) : norm_pdf (- x) = norm_pdf x.
Proof. unfold norm_pdf. replace (- x * - x) with (x * x) by ring. reflexivity. Qed.

Lemma norm_pdf_integrable (a b : R) : Riemann_integrable norm_pdf a b.
Proof.
  destruct (Rle_dec a b) as [Hab | Hab].
  - apply continuity_implies_RiemannInt; [exact Hab|].
    intros; apply norm_pdf_continuous.
  - apply RiemannInt_P1, continuity_implies_RiemannInt; [lra|].
    intros; apply norm_pdf_continuous.
Qed.

(** [norm.cdf]: the standard normal distribution function,
    [1/2 + integral_0^x norm_pdf]. *)
Definition norm_cdf (x : R) : R := / 2 + RiemannInt (norm_pdf_integrable 0 x).

Lemma norm_cdf_0 : norm_cdf 0 = / 2.
Proof. unfold norm_cdf. rewrite RiemannInt_P9. ring. Qed.

(** A derivative only depends on the function near the point. *)
Lemma derivable_pt_lim_local (f g : R -> R) (x l d : R) :
  0 < d -> (forall y, Rabs (y - x) < d -> f y = g y) ->
  derivable_pt_lim g x l -> derivable_pt_lim f x l.
Proof.
  intros Hd Heq Hg eps Heps.
  destruct (Hg eps Heps) as [del Hdel].
  assert (Hm : 0 < Rmin del d) by (apply Rmin_pos; [apply cond_pos | exact Hd]).
  exists (mkposreal _ Hm). intros h Hh0 Hh. simpl in Hh.
  rewrite !Heq.
  - apply Hdel; [exact Hh0|]. eapply Rlt_le_trans; [exact Hh|apply Rmin_l].
  - rewrite Rminus_diag, Rabs_R0. exact Hd.
  - replace (x + h - x) with h by ring.
    eapply Rlt_le_trans; [exact Hh|apply Rmin_r].
Qed.

Lemma norm_cdf_derivable_lim (x : R) : derivable_pt_lim norm_cdf x (norm_pdf x).
Proof.
  assert (Hab : x - 1 <= x + 1) by lra.
  assert (C0 : forall y, x - 1 <= y <= x + 1 -> continuity_pt norm_pdf y)
    by (intros; apply norm_pdf_continuous).
  set (P := primitive Hab (FTC_P1 Hab C0)).
  apply (derivable_pt_lim_local _
           (fun y => / 2 + RiemannInt (norm_pdf_integrable 0 (x - 1)) + P y) _ _ 1).
  - lra.
  - intros y Hy. apply Rabs_def2 in Hy.
    unfold norm_cdf, P, primitive.
    destruct (Rle_dec (x - 1) y) as [H1|H1]; [|lra].
    destruct (Rle_dec y (x + 1)) as [H2|H2]; [|lra].
    rewrite Rplus_assoc. f_equal. symmetry. apply RiemannInt_P26.
  - replace (norm_pdf x) with (0 + norm_pdf x) by ring.
    apply derivable_pt_lim_plus; [apply derivable_pt_lim_const|].
    unfold P. apply RiemannInt_P28. lra.
Qed.

Lemma norm_cdf_continuous : continuity norm_cdf.
Proof.
  intro x. apply derivable_continuous_pt.
  exists (norm_pdf x). apply norm_cdf_derivable_lim.
Qed.

(** [norm.cdf] is strictly increasing. *)
Lemma norm_cdf_lt (a b : R) : a < b -> norm_cdf a < norm_cdf b.
Proof.
  intros Hab.
  destruct (MVT_cor2 norm_cdf norm_pdf a b Hab
              (fun c _ => norm_cdf_derivable_lim c)) as [c [Hc _]].
  pose proof (norm_pdf_pos c).
  assert (0 < norm_pdf c * (b - a)) by (apply Rmult_lt_0_compat; lra).
  lra.
Qed.

(** The symmetry [norm.cdf(-x) = 1 - norm.cdf(x)]. *)
Lemma norm_cdf_opp (x : R) : norm_cdf (- x) = 1 - norm_cdf x.
Proof.
  set (g := fun y => norm_cdf y + norm_cdf (- y)).
  assert (Hg : forall c, derivable_pt_lim g c 0).
  { intro c. unfold g.
    replace 0 with (norm_pdf c + norm_pdf (- c) * (-1)).
    2: { rewrite norm_pdf_even. ring. }
    apply derivable_pt_lim_plus; [apply norm_cdf_derivable_lim|].
    apply (derivable_pt_lim_comp (fun y => - y) norm_cdf).
    - replace (-1) with (- (1)) by ring. apply derivable_pt_lim_opp, derivable_pt_lim_id.
    - apply norm_cdf_derivable_lim. }
  assert (Hg0 : g 0 = 1).
  { unfold g. rewrite Ropp_0, norm_cdf_0. field. }
  assert (g x = 1).
  { destruct (Rtotal_order 0 x) as [Hx | [Hx | Hx]].
    - destruct (MVT_cor2 g (fun _ => 0) 0 x Hx (fun c _ => Hg c)) as [c [Hc _]].
      lra.
    - subst. exact Hg0.
    - destruct (MVT_cor2 g (fun _ => 0) x 0 Hx (fun c _ => Hg c)) as [c [Hc _]].
      lra. }
  unfold g in H. lra.
Qed.

(* ------------------------------------------------------------------ *)
(** ** The Black-Scholes kernel as a function of total volatility

    Both closed forms are, up to a positive factor, the kernel
    [A * cdf(x/s + s/2) - B * cdf(x/s - s/2)] with [x = ln (A / B)] and
    [s = sigma * sqrt T]: [A = S, B = K e^(-rT)] for the spot model and
    [A = F, B = K] (times [df]) for the futures model. *)

Definition bs_core (A B s : R) : R :=
  A * norm_cdf (ln (A / B) / s + s / 2) - B * norm_cdf (ln (A / B) / s - s / 2).

Lemma derivable_pt_lim_cst_div (x s : R) :
  s <> 0 -> derivable_pt_lim (fun y => x / y) s (- x / (s * s)).
Proof.
  intros Hs.
  apply (derivable_pt_lim_ext (fct_cte x / id)%F).
  { intro z. reflexivity. }
  replace (- x / (s * s)) with ((0 * id s - 1 * fct_cte x s) / Rsqr (id s)).
  2: { unfold id, fct_cte, Rsqr. field. exact Hs. }
  apply derivable_pt_lim_div; [apply derivable_pt_lim_const | apply derivable_pt_lim_id |].
  exact Hs.
Qed.

Lemma norm_pdf_shift (A B x s : R) :
  0 < A -> 0 < B -> 0 < s -> x = ln (A / B) ->
  B * norm_pdf (x / s - s / 2) = A * norm_pdf (x / s + s / 2).
Proof.
  intros HA HB Hs Hx. unfold norm_pdf.
  replace (- ((x / s - s / 2) * (x / s - s / 2)) / 2)
    with (- ((x / s + s / 2) * (x / s + s / 2)) / 2 + x) by (field; lra).
  rewrite exp_plus, Hx, exp_ln by (apply Rdiv_lt_0_compat; lra).
  field. repeat split; try (intro; lra). apply Rgt_not_eq, sqrt_lt_R0. pose proof PI_RGT_0. lra.
Qed.

Lemma bs_core_derivable_lim (A B s : R) :
  0 < A -> 0 < B -> 0 < s ->
  derivable_pt_lim (bs_core A B) s (A * norm_pdf (ln (A / B) / s + s / 2)).
Proof.
  intros HA HB Hs. set (x := ln (A / B)).
  assert (Hu : derivable_pt_lim (fun y => x / y + y / 2) s (- x / (s * s) + 1 / 2)).
  { apply derivable_pt_lim_plus; [apply derivable_pt_lim_cst_div; lra|].
    apply derivable_pt_lim_div_scal, derivable_pt_lim_id. }
  assert (Hv : derivable_pt_lim (fun y => x / y - y / 2) s (- x / (s * s) - 1 / 2)).
  { apply derivable_pt_lim_minus; [apply derivable_pt_lim_cst_div; lra|].
    apply derivable_pt_lim_div_scal, derivable_pt_lim_id. }
  assert (Hd : derivable_pt_lim (bs_core A B) s
     (A * (norm_pdf (x / s + s / 2) * (- x / (s * s) + 1 / 2))
      - B * (norm_pdf (x / s - s / 2) * (- x / (s * s) - 1 / 2)))).
  { unfold bs_core. fold x.
    apply derivable_pt_lim_minus; apply derivable_pt_lim_scal;
      (apply (derivable_pt_lim_comp _ norm_cdf); [assumption | apply norm_cdf_derivable_lim]). }
  replace (A * norm_pdf (x / s + s / 2)) with
     (A * (norm_pdf (x / s + s / 2) * (- x / (s * s) + 1 / 2))
      - B * (norm_pdf (x / s - s / 2) * (- x / (s * s) - 1 / 2))).
  - exact Hd.
  - rewrite <- !Rmult_assoc, (norm_pdf_shift A B x s) by (auto; lra). field; apply Rgt_not_eq; lra.
Qed.

Lemma bs_core_lt (A B s1 s2 : R) :
  0 < A -> 0 < B -> 0 < s1 -> s1 < s2 -> bs_core A B s1 < bs_core A B s2.
Proof.
  intros HA HB Hs1 H12.
  destruct (MVT_cor2 (bs_core A B) (fun s => A * norm_pdf (ln (A / B) / s + s / 2))
              s1 s2 H12 (fun c Hc => bs_core_derivable_lim A B c HA HB ltac:(lra)))
    as [c [Hc Hc']].
  assert (0 < A * norm_pdf (ln (A / B) / c + c / 2) * (s2 - s1)).
  { apply Rmult_lt_0_compat; [apply Rmult_lt_0_compat; [lra | apply norm_pdf_pos] | lra]. }
  lra.
Qed.

(* ------------------------------------------------------------------ *)
(** ** Python exceptions and results *)

Inductive exn : Type :=
| ValueError
| ZeroDivisionError
| RuntimeError.

(** A Python computation either returns a value or raises. *)
Inductive pyres (A : Type) : Type :=
| Ok (a : A)
| Raise (e : exn).
Arguments Ok {A} a.
Arguments Raise {A} e.

Definition pybind {A B : Type} (c : pyres A) (k : A -> pyres B) : pyres B :=
  match c with
  | Ok a => k a
  | Raise e => Raise e
  end.

Notation "'let*' x ':=' c 'in' k" := (pybind c (fun x => k))
  (at level 200, x binder, c at level 100, k at level 200).

(** Python float division [x / y]: raises [ZeroDivisionError] on a zero
    divisor.  (Divisions where an operand is a numpy float64, such as
    [/ (sigma * np.sqrt(T))], do not raise and are written with [/].) *)
Definition py_div (x y : R) : pyres R :=
  if Req_EM_T y 0 then Raise ZeroDivisionError else Ok (x / y).

(** [round(x, 4)]: round half to even at the fourth decimal. *)
Definition round_half_even (y : R) : Z :=
  let n := Int_part y in
  let f := y - IZR n in
  if Rlt_dec f (/ 2) then n
  else if Rlt_dec (/ 2) f then (n + 1)%Z
  else if Z.even n then n else (n + 1)%Z.

Definition round4 (x : R) : R := IZR (round_half_even (x * 10000)) / 10000.

(* ------------------------------------------------------------------ *)
(** ** pricing.py: closed-form prices *)

(** [black_scholes(S, K, T, r, sigma, option_type)] *)
Definition black_scholes (S K T r sigma : R) (option_type : string) : pyres R :=
  let* q := py_div S K in
  let d1 := (ln q + (r + 0.5 * sigma ^ 2) * T) / (sigma * sqrt T) in
  let d2 := d1 - sigma * sqrt T in
  if String.eqb option_type "call" then
    Ok (S * norm_cdf d1 - K * exp (- r * T) * norm_cdf d2)
  else if String.eqb option_type "put" then
    Ok (K * exp (- r * T) * norm_cdf (- d2) - S * norm_cdf (- d1))
  else Raise ValueError.

(** [black_76(F, K, T, r, sigma, option_type)] *)
Definition black_76 (F K T r sigma : R) (option_type : string) : pyres R :=
  let* q := py_div F K in
  let d1 := (ln q + 0.5 * sigma ^ 2 * T) / (sigma * sqrt T) in
  let d2 := d1 - sigma * sqrt T in
  let df := exp (- r * T) in
  if String.eqb option_type "call" then
    Ok (df * (F * norm_cdf d1 - K * norm_cdf d2))
  else if String.eqb option_type "put" then
    Ok (df * (K * norm_cdf (- d2) - F * norm_cdf (- d1)))
  else Raise ValueError.

(** [price_option(model, S_or_F, K, T, r, sigma, option_type)] *)
Definition price_option (model : string) (S_or_F K T r sigma : R)
    (option_type : string) : pyres R :=
  if String.eqb model "spot" then black_scholes S_or_F K T r sigma option_type
  else if String.eqb model "futures" then black_76 S_or_F K T r sigma option_type
  else Raise ValueError.

(* ------------------------------------------------------------------ *)
(** ** pricing.py: Greeks *)

(** The returned dict, in insertion order. *)
Definition greeks_dict (delta gamma vega theta rho : R) : list (string * R) :=
  [("Delta", round4 delta); ("Gamma", round4 gamma); ("Vega", round4 vega);
   ("Theta", round4 theta); ("Rho", round4 rho)].

(** [calculate_greeks_bs(S, K, T, r, sigma, option_type)] *)
Definition calculate_greeks_bs (S K T r sigma : R) (option_type : string)
    : pyres (list (string * R)) :=
  let* q := py_div S K in
  let d1 := (ln q + (r + 0.5 * sigma ^ 2) * T) / (sigma * sqrt T) in
  let d2 := d1 - sigma * sqrt T in
  let* dtr :=
    (if String.eqb option_type "call" then
       Ok (norm_cdf d1,
           (- S * norm_pdf d1 * sigma / (2 * sqrt T)
            - r * K * exp (- r * T) * norm_cdf d2) / 365,
           K * T * exp (- r * T) * norm_cdf d2 / 100)
     else if String.eqb option_type "put" then
       Ok (norm_cdf d1 - 1,
           (- S * norm_pdf d1 * sigma / (2 * sqrt T)
            + r * K * exp (- r * T) * norm_cdf (- d2)) / 365,
           - K * T * exp (- r * T) * norm_cdf (- d2) / 100)
     else Raise ValueError) in
  let '(delta, theta, rho) := dtr in
  let gamma := norm_pdf d1 / (S * sigma * sqrt T) in
  let vega := S * norm_pdf d1 * sqrt T / 100 in
  Ok (greeks_dict delta gamma vega theta rho).

(** [calculate_greeks_black76(F, K, T, r, sigma, option_type)] *)
Definition calculate_greeks_black76 (F K T r sigma : R) (option_type : string)
    : pyres (list (string * R)) :=
  let* q := py_div F K in
  let d1 := (ln q + 0.5 * sigma ^ 2 * T) / (sigma * sqrt T) in
  let d2 := d1 - sigma * sqrt T in
  let df := exp (- r * T) in
  let gamma := norm_pdf d1 / (F * sigma * sqrt T) in
  let vega := F * norm_pdf d1 * sqrt T * df / 100 in
  let* dtr :=
    (if String.eqb option_type "call" then
       Ok (df * norm_cdf d1,
           T * K * df * norm_cdf d2 / 100,
           (- F * norm_pdf d1 * sigma * df / (2 * sqrt T)
            - r * F * norm_cdf d1 * df) / 365)
     else if String.eqb option_type "put" then
       Ok (- df * norm_cdf (- d1),
           - T * K * df * norm_cdf (- d2) / 100,
           (- F * norm_pdf d1 * sigma * df / (2 * sqrt T)
            + r * F * norm_cdf (- d1) * df) / 365)
     else Raise ValueError) in
  let '(delta, rho, theta) := dtr in
  Ok (greeks_dict delta gamma vega theta rho).

(** [calculate_greeks(model, S_or_F, K, T, r, sigma, option_type)] *)
Definition calculate_greeks (model : string) (S_or_F K T r sigma : R)
    (option_type : string) : pyres (list (string * R)) :=
  if String.eqb model "spot" then calculate_greeks_bs S_or_F K T r sigma option_type
  else if String.eqb model "futures" then calculate_greeks_black76 S_or_F K T r sigma option_type
  else Raise ValueError.

(* ------------------------------------------------------------------ *)
(** ** pricing.py: implied volatility

    [scipy.optimize.brentq] is a library routine; it is a parameter of the
    solver, [brentq f a b], and its documented behaviour is stated where a
    result needs it ([brentq_contract] below).  The objective may raise (the
    pricing function raises), and such an exception propagates out of
    [brentq]. *)

Section ImpliedVolatility.

Variable brentq : (R -> pyres R) -> R -> R -> pyres (R).

(** [try: ... except ValueError: return None] *)
Definition except_value_error (c : pyres (option R)) : pyres (option R) :=
  match c with
  | Raise ValueError => Ok None
  | _ => c
  end.

(** The shared body of both solvers, over a pricing function [price]
    taking the volatility. *)
Definition iv_body (price : R -> pyres R) (option_market_price : R) : pyres (option R) :=
  let objective_function := fun sigma =>
    let* p := price sigma in Ok (p - option_market_price) in
  except_value_error
    (let* test_low := price 0.0001 in
     let* test_high := price 3.0 in
     if Rle_dec test_low option_market_price then
       if Rle_dec option_market_price test_high then
         let* implied_vol := brentq objective_function 0.0001 3.0 in
         Ok (Some (round4 implied_vol))
       else Ok None
     else Ok None).

(** [implied_volatility(option_market_price, S, K, T, r, option_type)] *)
Definition implied_volatility (option_market_price S K T r : R)
    (option_type : string) : pyres (option R) :=
  iv_body (fun sigma => black_scholes S K T r sigma option_type) option_market_price.

(** [implied_volatility_black76(option_market_price, F, K, T, r, option_type)] *)
Definition implied_volatility_black76 (option_market_price F K T r : R)
    (option_type : string) : pyres (option R) :=
  iv_body (fun sigma => black_76 F K T r sigma option_type) option_market_price.

(** [get_implied_volatility(model, market_price, S_or_F, K, T, r, option_type)] *)
Definition get_implied_volatility (model : string) (market_price S_or_F K T r : R)
    (option_type : string) : pyres (option R) :=
  if String.eqb model "spot" then implied_volatility market_price S_or_F K T r option_type
  else if String.eqb model "futures" then
    implied_volatility_black76 market_price S_or_F K T r option_type
  else Raise ValueError.

End ImpliedVolatility.

(* ------------------------------------------------------------------ *)
(** ** The closed forms through the kernel *)

(** Evaluate the string comparisons of literal option types and models,
    and the result binds, without touching the real-number terms. *)
Ltac py_step :=
  repeat match goal with
         | |- context [String.eqb ?a ?b] =>
             let v := eval vm_compute in (String.eqb a b) in
             change (String.eqb a b) with v
         end;
  unfold pybind; cbv beta iota.

Lemma py_div_ok (x y : R) : y <> 0 -> py_div x y = Ok (x / y).
Proof. intros Hy. unfold py_div. destruct (Req_EM_T y 0); [contradiction | reflexivity]. Qed.

Lemma py_div_zero (x : R) : py_div x 0 = Raise ZeroDivisionError.
Proof. unfold py_div. destruct (Req_EM_T 0 0); [reflexivity | contradiction]. Qed.

Lemma R_half : 0.5 = / 2.
Proof. lra. Qed.

Lemma d1_total_vol (A B c T sigma : R) :
  0 < A -> 0 < B -> 0 < T -> 0 < sigma ->
  (ln (A / B) + c + 0.5 * sigma ^ 2 * T) / (sigma * sqrt T)
  = ln (A / (B * exp (- c))) / (sigma * sqrt T) + sigma * sqrt T / 2.
Proof.
  intros HA HB HT Hs.
  replace (A / (B * exp (- c))) with (A / B * exp c).
  2: { rewrite exp_Ropp. field. split; [apply Rgt_not_eq, exp_pos | lra]. }
  rewrite ln_mult, ln_exp by (try apply exp_pos; apply Rdiv_lt_0_compat; lra).
  assert (Ht : sqrt T * sqrt T = T) by (apply sqrt_sqrt; lra).
  assert (Ht0 : 0 < sqrt T) by (apply sqrt_lt_R0; lra).
  set (t := sqrt T) in *. rewrite <- Ht, R_half.
  field. split; apply Rgt_not_eq; lra.
Qed.

Lemma black_scholes_core (S K T r sigma : R) :
  0 < S -> 0 < K -> 0 < T -> 0 < sigma ->
  black_scholes S K T r sigma "call"
    = Ok (bs_core S (K * exp (- r * T)) (sigma * sqrt T)) /\
  black_scholes S K T r sigma "put"
    = Ok (bs_core S (K * exp (- r * T)) (sigma * sqrt T) + K * exp (- r * T) - S).
Proof.
  intros HS HK HT Hs.
  assert (Hd : (ln (S / K) + (r + 0.5 * sigma ^ 2) * T) / (sigma * sqrt T)
               = ln (S / (K * exp (- r * T))) / (sigma * sqrt T) + sigma * sqrt T / 2).
  { replace (- r * T) with (- (r * T)) by ring.
    rewrite <- (d1_total_vol S K (r * T) T sigma) by assumption.
    f_equal. ring. }
  unfold black_scholes, bs_core. rewrite py_div_ok by lra. py_step.
  rewrite Hd.
  set (x := ln (S / (K * exp (- r * T))) / (sigma * sqrt T)).
  replace (x + sigma * sqrt T / 2 - sigma * sqrt T) with (x - sigma * sqrt T / 2) by field.
  split; [reflexivity|].
  f_equal. rewrite !norm_cdf_opp. ring.
Qed.

Lemma black_76_core (F K T r sigma : R) :
  0 < F -> 0 < K -> 0 < T -> 0 < sigma ->
  black_76 F K T r sigma "call"
    = Ok (exp (- r * T) * bs_core F K (sigma * sqrt T)) /\
  black_76 F K T r sigma "put"
    = Ok (exp (- r * T) * (bs_core F K (sigma * sqrt T) + K - F)).
Proof.
  intros HF HK HT Hs.
  assert (Hd : (ln (F / K) + 0.5 * sigma ^ 2 * T) / (sigma * sqrt T)
               = ln (F / K) / (sigma * sqrt T) + sigma * sqrt T / 2).
  { pose proof (d1_total_vol F K 0 T sigma HF HK HT Hs) as H.
    rewrite Ropp_0, exp_0, Rmult_1_r, Rplus_0_r in H. exact H. }
  unfold black_76, bs_core. rewrite py_div_ok by lra. py_step.
  rewrite Hd.
  set (x := ln (F / K) / (sigma * sqrt T)).
  replace (x + sigma * sqrt T / 2 - sigma * sqrt T) with (x - sigma * sqrt T / 2) by field.
  split; [reflexivity|].
  f_equal. rewrite !norm_cdf_opp. ring.
Qed.

Lemma exp_neg_pos (r T : R) : 0 < exp (- r * T).
Proof. apply exp_pos. Qed.

Lemma sqrt_pos_lt (T : R) : 0 < T -> 0 < sqrt T.
Proof. intros; apply sqrt_lt_R0; lra. Qed.

(** Strict monotonicity of both closed forms in the volatility, spelled out
    for the four (model, option type) pairs. *)
Lemma price_option_sigma_lt (m o : string) (S K T r s1 s2 : R) :
  m = "spot" \/ m = "futures" -> o = "call" \/ o = "put" ->
  0 < S -> 0 < K -> 0 < T -> 0 < s1 -> s1 < s2 ->
  exists p1 p2, price_option m S K T r s1 o = Ok p1 /\
                price_option m S K T r s2 o = Ok p2 /\ p1 < p2.
Proof.
  intros Hm Ho HS HK HT Hs1 H12.
  pose proof (sqrt_pos_lt T HT) as Ht.
  pose proof (exp_neg_pos r T) as Hdf.
  assert (Hl : bs_core S (K * exp (- r * T)) (s1 * sqrt T)
               < bs_core S (K * exp (- r * T)) (s2 * sqrt T)).
  { apply bs_core_lt; try nra; apply Rmult_lt_0_compat; lra. }
  assert (Hf : exp (- r * T) * bs_core S K (s1 * sqrt T)
               < exp (- r * T) * bs_core S K (s2 * sqrt T)).
  { apply Rmult_lt_compat_l; [lra|]. apply bs_core_lt; nra. }
  destruct (black_scholes_core S K T r s1) as [Bc1 Bp1]; try lra.
  destruct (black_scholes_core S K T r s2) as [Bc2 Bp2]; try lra.
  destruct (black_76_core S K T r s1) as [Fc1 Fp1]; try lra.
  destruct (black_76_core S K T r s2) as [Fc2 Fp2]; try lra.
  destruct Hm as [-> | ->]; destruct Ho as [-> | ->]; unfold price_option; py_step.
  - rewrite Bc1, Bc2. do 2 eexists; split; [reflexivity | split; [reflexivity | lra]].
  - rewrite Bp1, Bp2. do 2 eexists; split; [reflexivity | split; [reflexivity | lra]].
  - rewrite Fc1, Fc2. do 2 eexists; split; [reflexivity | split; [reflexivity | lra]].
  - rewrite Fp1, Fp2. do 2 eexists; split; [reflexivity | split; [reflexivity | nra]].
Qed.

(* ------------------------------------------------------------------ *)
(** ** Rounding *)

Lemma round_half_even_bound (y : R) : Rabs (IZR (round_half_even y) - y) <= / 2.
Proof.
  unfold round_half_even.
  destruct (base_Int_part y) as [H1 H2].
  set (n := Int_part y) in *.
  assert (Hn1 : IZR (n + 1) = IZR n + 1) by (rewrite plus_IZR; reflexivity).
  destruct (Rlt_dec (y - IZR n) (/ 2)).
  - rewrite Rabs_left1; lra.
  - destruct (Rlt_dec (/ 2) (y - IZR n)).
    + rewrite Hn1, Rabs_right; lra.
    + destruct (Z.even n).
      * rewrite Rabs_left1; lra.
      * rewrite Hn1, Rabs_right; lra.
Qed.

Lemma round4_bound (x : R) : Rabs (round4 x - x) <= / 20000.
Proof.
  unfold round4.
  pose proof (round_half_even_bound (x * 10000)) as H.
  replace (IZR (round_half_even (x * 10000)) / 10000 - x)
    with ((IZR (round_half_even (x * 10000)) - x * 10000) / 10000) by field.
  unfold Rdiv. rewrite Rabs_mult, Rabs_inv, (Rabs_right 10000) by lra.
  apply (Rmult_le_reg_r 10000); [lra|].
  rewrite Rmult_assoc, Rinv_l by lra. lra.
Qed.

(** A value returned by [round(x, 4)] has at most four decimals. *)
Lemma round4_decimals (x : R) : exists z : Z, round4 x = IZR z / 10000.
Proof. exists (round_half_even (x * 10000)). reflexivity. Qed.

(** [d[key]] on the returned dict. *)
Definition dict_get (key : string) (d : list (string * R)) : option R :=
  match find (fun kv => String.eqb (fst kv) key) d with
  | Some (_, v) => Some v
  | None => None
  end.

(* ------------------------------------------------------------------ *)
(** ** Prices as functions of the volatility *)

(** For a recognised model and option type, the price is a positive
    multiple of the kernel at [sigma * sqrt T], plus a constant. *)
Lemma price_option_affine (m o : string) (S K T r : R) :
  m = "spot" \/ m = "futures" -> o = "call" \/ o = "put" ->
  0 < S -> 0 < K -> 0 < T ->
  exists al be A B, 0 < al /\ 0 < A /\ 0 < B /\
    forall sigma, 0 < sigma ->
      price_option m S K T r sigma o = Ok (al * bs_core A B (sigma * sqrt T) + be).
Proof.
  intros Hm Ho HS HK HT.
  pose proof (exp_neg_pos r T) as Hdf.
  destruct Hm as [-> | ->]; destruct Ho as [-> | ->].
  - exists 1, 0, S, (K * exp (- r * T)). repeat split; try nra.
    intros sigma Hs. unfold price_option; py_step.
    rewrite (proj1 (black_scholes_core S K T r sigma HS HK HT Hs)). f_equal. ring.
  - exists 1, (K * exp (- r * T) - S), S, (K * exp (- r * T)). repeat split; try nra.
    intros sigma Hs. unfold price_option; py_step.
    rewrite (proj2 (black_scholes_core S K T r sigma HS HK HT Hs)). f_equal. ring.
  - exists (exp (- r * T)), 0, S, K. repeat split; try nra.
    intros sigma Hs. unfold price_option; py_step.
    rewrite (proj1 (black_76_core S K T r sigma HS HK HT Hs)). f_equal. ring.
  - exists (exp (- r * T)), (exp (- r * T) * (K - S)), S, K. repeat split; try nra.
    intros sigma Hs. unfold price_option; py_step.
    rewrite (proj2 (black_76_core S K T r sigma HS HK HT Hs)). f_equal. ring.
Qed.

Lemma affine_core_continuous (al be A B T sigma : R) :
  0 < A -> 0 < B -> 0 < T -> 0 < sigma ->
  continuity_pt (fun s => al * bs_core A B (s * sqrt T) + be) sigma.
Proof.
  intros HA HB HT Hs. apply derivable_continuous_pt.
  pose proof (sqrt_pos_lt T HT).
  eexists. apply derivable_pt_lim_plus; [|apply derivable_pt_lim_const].
  apply (derivable_pt_lim_scal (fun s => bs_core A B (s * sqrt T))).
  apply (derivable_pt_lim_comp (fun s => s * sqrt T) (bs_core A B)).
  - apply derivable_pt_lim_scal_right, derivable_pt_lim_id.
  - apply bs_core_derivable_lim; nra.
Qed.

Lemma affine_core_lt (al be A B T s1 s2 : R) :
  0 < al -> 0 < A -> 0 < B -> 0 < T -> 0 < s1 -> s1 < s2 ->
  al * bs_core A B (s1 * sqrt T) + be < al * bs_core A B (s2 * sqrt T) + be.
Proof.
  intros Hal HA HB HT H1 H12. pose proof (sqrt_pos_lt T HT).
  apply Rplus_lt_compat_r, Rmult_lt_compat_l; [exact Hal|].
  apply bs_core_lt; nra.
Qed.

(* ------------------------------------------------------------------ *)
(** ** The root finder

    [brentq(f, a, b)] with scipy's default tolerances [xtol = 2e-12] and
    [rtol = 4 * machine epsilon].  Its documented guarantee: on a bracketing
    interval of a continuous function it returns a point of [[a, b]] within
    [xtol + rtol * |x|] of a root. *)

Definition brent_xtol : R := 2e-12.
Definition brent_rtol : R := 4 * 2.220446049250313e-16.

Definition brentq_contract (brentq : (R -> pyres R) -> R -> R -> pyres R) : Prop :=
  forall (f : R -> pyres R) (g : R -> R) (a b : R),
    a < b ->
    (forall x, a <= x <= b -> f x = Ok (g x)) ->
    (forall x, a <= x <= b -> continuity_pt g x) ->
    g a * g b <= 0 ->
    exists x, brentq f a b = Ok x /\ a <= x <= b /\
      exists y, a <= y <= b /\ g y = 0 /\ Rabs (x - y) <= brent_xtol + brent_rtol * Rabs x.

(** An exact root finder: it returns a root of [f] in [[a, b]] when one
    exists.  It satisfies [brentq_contract] and so instantiates results that
    assume it. *)
Definition exact_brentq (f : R -> pyres R) (a b : R) : pyres R :=
  match excluded_middle_informative (exists x, a <= x <= b /\ f x = Ok 0) with
  | left H => Ok (proj1_sig (constructive_indefinite_description _ H))
  | right _ => Raise ValueError
  end.

Lemma exact_brentq_contract : brentq_contract exact_brentq.
Proof.
  intros f g a b Hab Hfg Hc Hsign.
  assert (Hroot : exists x, a <= x <= b /\ g x = 0).
  { destruct (Rtotal_order (g a) 0) as [Ha | [Ha | Ha]];
      destruct (Rtotal_order (g b) 0) as [Hb | [Hb | Hb]];
      try (exists a; split; [lra | exact Ha]);
      try (exists b; split; [lra | exact Hb]);
      try nra.
    - destruct (IVT_interv g a b Hc Hab Ha Hb) as [z Hz]. exists z. exact Hz.
    - destruct (IVT_interv (fun x => - g x) a b) as [z Hz]; try lra.
      + intros x Hx. apply continuity_pt_opp. apply Hc. exact Hx.
      + exists z. lra. }
  unfold exact_brentq.
  destruct (excluded_middle_informative _) as [H | H].
  - destruct (constructive_indefinite_description _ H) as [x [Hx Hfx]]. simpl.
    exists x. split; [reflexivity | split; [exact Hx|]].
    exists x. split; [exact Hx|]. split.
    + rewrite Hfg in Hfx by exact Hx. injection Hfx. auto.
    + rewrite Rminus_diag, Rabs_R0. unfold brent_xtol, brent_rtol.
      pose proof (Rabs_pos x). nra.
  - exfalso. apply H. destruct Hroot as [x [Hx Hg]].
    exists x. split; [exact Hx|]. rewrite Hfg by exact Hx. rewrite Hg. reflexivity.
Qed.

(* ------------------------------------------------------------------ *)
(** ** The solvers through [iv_body] *)

Lemma get_implied_volatility_body (brentq : (R -> pyres R) -> R -> R -> pyres R)
    (m o : string) (mp S K T r : R) :
  m = "spot" \/ m = "futures" ->
  get_implied_volatility brentq m mp S K T r o
  = iv_body brentq (fun sigma => price_option m S K T r sigma o) mp.
Proof. intros [-> | ->]; reflexivity. Qed.

Lemma iv_body_bracket (brentq : (R -> pyres R) -> R -> R -> pyres R)
    (price : R -> pyres R) (mp lo hi : R) :
  price 0.0001 = Ok lo -> price 3.0 = Ok hi ->
  ((mp < lo \/ hi < mp) -> iv_body brentq price mp = Ok None) /\
  (lo <= mp <= hi ->
   iv_body brentq price mp
   = except_value_error
       (let* implied_vol := brentq (fun sigma => let* p := price sigma in Ok (p - mp))
                                   0.0001 3.0 in
        Ok (Some (round4 implied_vol)))).
Proof.
  intros Hlo Hhi. unfold iv_body. rewrite Hlo, Hhi. cbn [pybind].
  split.
  - intros H. destruct (Rle_dec lo mp); [destruct (Rle_dec mp hi)|]; try reflexivity; lra.
  - intros H. destruct (Rle_dec lo mp); [destruct (Rle_dec mp hi)|]; try reflexivity; lra.
Qed.

(** Round trip through the solver, for any root finder meeting
    [brentq_contract]. *)
Lemma iv_round_trip (brentq : (R -> pyres R) -> R -> R -> pyres R)
    (m o : string) (S K T r sigma0 p : R) :
  brentq_contract brentq ->
  m = "spot" \/ m = "futures" -> o = "call" \/ o = "put" ->
  0 < S -> 0 < K -> 0 < T -> 0.0001 < sigma0 < 3.0 ->
  price_option m S K T r sigma0 o = Ok p ->
  exists v, get_implied_volatility brentq m p S K T r o = Ok (Some v) /\
            Rabs (v - sigma0) <= 0.0001.
Proof.
  intros Hbq Hm Ho HS HK HT Hs0 Hp.
  destruct (price_option_affine m o S K T r Hm Ho HS HK HT)
    as (al & be & A & B & Hal & HA & HB & Hpr).
  set (G := fun s => al * bs_core A B (s * sqrt T) + be).
  assert (HG : forall s, 0 < s -> price_option m S K T r s o = Ok (G s))
    by (intros; apply Hpr; assumption).
  assert (HGlt : forall s1 s2, 0 < s1 -> s1 < s2 -> G s1 < G s2)
    by (intros; apply affine_core_lt; assumption).
  rewrite HG in Hp by lra. injection Hp as <-.
  assert (Hlo : G 0.0001 < G sigma0) by (apply HGlt; lra).
  assert (Hhi : G sigma0 < G 3.0) by (apply HGlt; lra).
  rewrite get_implied_volatility_body by exact Hm.
  rewrite (proj2 (iv_body_bracket brentq (fun sigma => price_option m S K T r sigma o)
                    (G sigma0) (G 0.0001) (G 3.0)
                    (HG 0.0001 ltac:(lra)) (HG 3.0 ltac:(lra)))) by lra.
  set (g := fun s => al * bs_core A B (s * sqrt T) + (be - G sigma0)).
  destruct (Hbq (fun sigma => let* p := price_option m S K T r sigma o in Ok (p - G sigma0))
                g 0.0001 3.0) as (x & Hx & Hxab & y & Hyab & Hgy & Hxy).
  - lra.
  - intros x Hx. rewrite HG by lra. cbn [pybind]. f_equal. unfold g, G. ring.
  - intros x Hx. apply affine_core_continuous; lra.
  - assert (g 0.0001 = G 0.0001 - G sigma0) by (unfold g, G; ring).
    assert (g 3.0 = G 3.0 - G sigma0) by (unfold g, G; ring). nra.
  - rewrite Hx. cbn [pybind except_value_error].
    exists (round4 x). split; [reflexivity|].
    assert (Hy : y = sigma0).
    { assert (g y = G y - G sigma0) by (unfold g, G; ring).
      assert (HGy : G y = G sigma0) by lra.
      destruct (Rtotal_order y sigma0) as [Hlt | [Heq | Hgt]]; [| exact Heq |].
      - pose proof (HGlt y sigma0 ltac:(lra) Hlt). lra.
      - pose proof (HGlt sigma0 y ltac:(lra) Hgt). lra. }
    subst y.
    pose proof (round4_bound x) as Hr.
    assert (Hax : Rabs x <= 3) by (rewrite Rabs_right; lra).
    unfold brent_xtol, brent_rtol in Hxy.
    replace (round4 x - sigma0) with ((round4 x - x) + (x - sigma0)) by ring.
    eapply Rle_trans; [apply Rabs_triang|]. nra.
Qed.

(* ------------------------------------------------------------------ *)
(** ** Numeric bounds on the normal distribution near 0 *)

Lemma exp_m1_lower : / 3 <= exp (- 1).
Proof.
  replace (- 1) with (- (1)) by ring.
  rewrite exp_Ropp. apply Rinv_le_contravar; [apply exp_pos | apply exp_le_3].
Qed.

Lemma norm_pdf_lower (c : R) : -1 < c < 1 -> / 9 <= norm_pdf c.
Proof.
  intros Hc. unfold norm_pdf.
  assert (He : / 3 <= exp (- (c * c) / 2)).
  { eapply Rle_trans; [apply exp_m1_lower|].
    destruct (Req_dec (- 1) (- (c * c) / 2)) as [E | E]; [rewrite E; lra|].
    left. apply exp_increasing. nra. }
  assert (Hs : 0 < sqrt (2 * PI) <= 3).
  { pose proof PI_RGT_0. pose proof PI_4. split; [apply sqrt_lt_R0; lra|].
    rewrite <- (sqrt_square 3) by lra. apply sqrt_le_1_alt. lra. }
  apply (Rmult_le_reg_r (sqrt (2 * PI))); [lra|].
  unfold Rdiv. rewrite Rmult_assoc, Rinv_l by lra. nra.
Qed.

Lemma norm_cdf_gap : 2 / 9 <= norm_cdf 1 - norm_cdf (- 1).
Proof.
  destruct (MVT_cor2 norm_cdf norm_pdf (- 1) 1 ltac:(lra)
              (fun c _ => norm_cdf_derivable_lim c)) as [c [Hc Hc']].
  rewrite Hc. pose proof (norm_pdf_lower c Hc'). lra.
Qed.

(* ------------------------------------------------------------------ *)
(** ** Derivatives of the kernel *)

Lemma dlim_eq (f : R -> R) (x l l' : R) :
  l = l' -> derivable_pt_lim f x l -> derivable_pt_lim f x l'.
Proof. intros <-; auto. Qed.

Lemma bs_core_chain (fA fB fs : R -> R) (t a b c : R) :
  0 < fA t -> 0 < fB t -> 0 < fs t ->
  derivable_pt_lim fA t a -> derivable_pt_lim fB t b -> derivable_pt_lim fs t c ->
  derivable_pt_lim (fun y => bs_core (fA y) (fB y) (fs y)) t
    (a * norm_cdf (ln (fA t / fB t) / fs t + fs t / 2)
     - b * norm_cdf (ln (fA t / fB t) / fs t - fs t / 2)
     + fA t * norm_pdf (ln (fA t / fB t) / fs t + fs t / 2) * c).
Proof.
  intros HA HB Hs DA DB Ds.
  set (X := fun y => ln (fA y / fB y)).
  set (X' := / (fA t / fB t) * ((a * fB t - b * fA t) / (fB t * fB t))).
  assert (DX : derivable_pt_lim X t X').
  { unfold X, X'.
    apply (derivable_pt_lim_comp (fun y => fA y / fB y) ln).
    - eapply dlim_eq; [|apply (derivable_pt_lim_div fA fB t a b DA DB); lra].
      unfold Rsqr. reflexivity.
    - apply derivable_pt_lim_ln. apply Rdiv_lt_0_compat; assumption. }
  assert (DQ : derivable_pt_lim (fun y => X y / fs y) t ((X' * fs t - c * X t) / (fs t * fs t))).
  { eapply dlim_eq; [|apply (derivable_pt_lim_div X fs t X' c DX Ds); lra].
    unfold Rsqr. reflexivity. }
  assert (DU : derivable_pt_lim (fun y => X y / fs y + fs y / 2) t
                 ((X' * fs t - c * X t) / (fs t * fs t) + c / 2)).
  { apply (derivable_pt_lim_plus (fun y => X y / fs y) (fun y => fs y / 2)); [exact DQ|].
    apply (derivable_pt_lim_div_scal fs). exact Ds. }
  assert (DV : derivable_pt_lim (fun y => X y / fs y - fs y / 2) t
                 ((X' * fs t - c * X t) / (fs t * fs t) - c / 2)).
  { apply (derivable_pt_lim_minus (fun y => X y / fs y) (fun y => fs y / 2)); [exact DQ|].
    apply (derivable_pt_lim_div_scal fs). exact Ds. }
  set (U := X t / fs t + fs t / 2). set (V := X t / fs t - fs t / 2).
  assert (D1 : derivable_pt_lim (fun y => fA y * norm_cdf (X y / fs y + fs y / 2)) t
                 (a * norm_cdf U + fA t * (norm_pdf U *
                    ((X' * fs t - c * X t) / (fs t * fs t) + c / 2)))).
  { apply (derivable_pt_lim_mult fA (fun y => norm_cdf (X y / fs y + fs y / 2))); [exact DA|].
    apply (derivable_pt_lim_comp (fun y => X y / fs y + fs y / 2) norm_cdf); [exact DU|].
    apply norm_cdf_derivable_lim. }
  assert (D2 : derivable_pt_lim (fun y => fB y * norm_cdf (X y / fs y - fs y / 2)) t
                 (b * norm_cdf V + fB t * (norm_pdf V *
                    ((X' * fs t - c * X t) / (fs t * fs t) - c / 2)))).
  { apply (derivable_pt_lim_mult fB (fun y => norm_cdf (X y / fs y - fs y / 2))); [exact DB|].
    apply (derivable_pt_lim_comp (fun y => X y / fs y - fs y / 2) norm_cdf); [exact DV|].
    apply norm_cdf_derivable_lim. }
  pose proof (derivable_pt_lim_minus _ _ _ _ _ D1 D2) as D.
  pose proof (norm_pdf_shift (fA t) (fB t) (X t) (fs t) HA HB Hs eq_refl) as Hsh.
  fold U V in Hsh.
  eapply dlim_eq; [|exact D].
  fold X U V.
  replace (fB t * (norm_pdf V * ((X' * fs t - c * X t) / (fs t * fs t) - c / 2)))
    with ((fB t * norm_pdf V) * ((X' * fs t - c * X t) / (fs t * fs t) - c / 2)) by ring.
  rewrite Hsh.
  change (ln (fA t / fB t) / fs t + fs t / 2) with U.
  change (ln (fA t / fB t) / fs t - fs t / 2) with V.
  clearbody U V X'. field. lra.
Qed.

Lemma bs_d1 (S K T r sigma : R) :
  0 < S -> 0 < K -> 0 < T -> 0 < sigma ->
  (ln (S / K) + (r + 0.5 * sigma ^ 2) * T) / (sigma * sqrt T)
  = ln (S / (K * exp (- r * T))) / (sigma * sqrt T) + sigma * sqrt T / 2.
Proof.
  intros HS HK HT Hs.
  replace (- r * T) with (- (r * T)) by ring.
  rewrite <- (d1_total_vol S K (r * T) T sigma) by assumption.
  f_equal. ring.
Qed.

Lemma b76_d1 (F K T sigma : R) :
  0 < F -> 0 < K -> 0 < T -> 0 < sigma ->
  (ln (F / K) + 0.5 * sigma ^ 2 * T) / (sigma * sqrt T)
  = ln (F / K) / (sigma * sqrt T) + sigma * sqrt T / 2.
Proof.
  intros HF HK HT Hs.
  pose proof (d1_total_vol F K 0 T sigma HF HK HT Hs) as H.
  rewrite Ropp_0, exp_0, Rmult_1_r, Rplus_0_r in H. exact H.
Qed.

Lemma greeks_dict_get (de ga ve th rh : R) :
  dict_get "Delta" (greeks_dict de ga ve th rh) = Some (round4 de) /\
  dict_get "Gamma" (greeks_dict de ga ve th rh) = Some (round4 ga) /\
  dict_get "Vega" (greeks_dict de ga ve th rh) = Some (round4 ve) /\
  dict_get "Theta" (greeks_dict de ga ve th rh) = Some (round4 th) /\
  dict_get "Rho" (greeks_dict de ga ve th rh) = Some (round4 rh).
Proof. repeat split. Qed.

Lemma bs_core_dA (A B s : R) :
  0 < A -> 0 < B -> 0 < s ->
  derivable_pt_lim (fun y => bs_core y B s) A (norm_cdf (ln (A / B) / s + s / 2)).
Proof.
  intros HA HB Hs.
  eapply dlim_eq;
    [|exact (bs_core_chain (fun y => y) (fun _ => B) (fun _ => s) A 1 0 0 HA HB Hs
               (derivable_pt_lim_id A) (derivable_pt_lim_const B A)
               (derivable_pt_lim_const s A))].
  cbv beta. ring.
Qed.

Lemma d1_dA (A B s : R) :
  0 < A -> 0 < B -> 0 < s ->
  derivable_pt_lim (fun y => ln (y / B) / s + s / 2) A (/ (A * s)).
Proof.
  intros HA HB Hs.
  eapply dlim_eq; [|apply (derivable_pt_lim_plus (fun y => ln (y / B) / s) (fun _ => s / 2))].
  3: apply derivable_pt_lim_const.
  2: { apply (derivable_pt_lim_div_scal (fun y => ln (y / B))).
       apply (derivable_pt_lim_comp (fun y => y / B) ln).
       - apply (derivable_pt_lim_div_scal (fun y => y)), derivable_pt_lim_id.
       - apply derivable_pt_lim_ln. apply Rdiv_lt_0_compat; assumption. }
  field. repeat split; apply Rgt_not_eq; assumption.
Qed.

Lemma norm_cdf_d1_dA (A B s : R) :
  0 < A -> 0 < B -> 0 < s ->
  derivable_pt_lim (fun y => norm_cdf (ln (y / B) / s + s / 2)) A
    (norm_pdf (ln (A / B) / s + s / 2) / (A * s)).
Proof.
  intros HA HB Hs.
  eapply dlim_eq; [|apply (derivable_pt_lim_comp (fun y => ln (y / B) / s + s / 2) norm_cdf)].
  3: apply norm_cdf_derivable_lim.
  2: apply d1_dA; assumption.
  unfold Rdiv. ring.
Qed.

Lemma derivable_pt_lim_mul_const (c x : R) :
  derivable_pt_lim (fun y => y * c) x c.
Proof.
  eapply dlim_eq; [|apply (derivable_pt_lim_scal_right id x 1 c), derivable_pt_lim_id].
  ring.
Qed.

Lemma bs_core_dsigma (A B T sigma : R) :
  0 < A -> 0 < B -> 0 < T -> 0 < sigma ->
  derivable_pt_lim (fun y => bs_core A B (y * sqrt T)) sigma
    (A * norm_pdf (ln (A / B) / (sigma * sqrt T) + sigma * sqrt T / 2) * sqrt T).
Proof.
  intros HA HB HT Hs. pose proof (sqrt_pos_lt T HT).
  eapply dlim_eq;
    [|exact (bs_core_chain (fun _ => A) (fun _ => B) (fun y => y * sqrt T) sigma 0 0 (sqrt T)
               HA HB ltac:(cbv beta; nra)
               (derivable_pt_lim_const A sigma) (derivable_pt_lim_const B sigma)
               (derivable_pt_lim_mul_const (sqrt T) sigma))].
  cbv beta. ring.
Qed.

Lemma dlim_disc_T (K r T : R) :
  derivable_pt_lim (fun y => K * exp (- r * y)) T (K * (exp (- r * T) * - r)).
Proof.
  apply derivable_pt_lim_scal.
  apply (derivable_pt_lim_comp (fun y => - r * y) exp); [|apply derivable_pt_lim_exp].
  eapply dlim_eq; [|apply (derivable_pt_lim_scal id (- r) T 1), derivable_pt_lim_id]. ring.
Qed.

Lemma dlim_disc_r (K r T : R) :
  derivable_pt_lim (fun y => K * exp (- y * T)) r (K * (exp (- r * T) * - T)).
Proof.
  apply derivable_pt_lim_scal.
  apply (derivable_pt_lim_comp (fun y => - y * T) exp); [|apply derivable_pt_lim_exp].
  eapply dlim_eq;
    [|apply (derivable_pt_lim_scal_right (fun y => - y) r (- 1) T);
      apply (derivable_pt_lim_opp id r 1), derivable_pt_lim_id].
  ring.
Qed.

Lemma dlim_vol_T (sigma T : R) :
  0 < T -> derivable_pt_lim (fun y => sigma * sqrt y) T (sigma * / (2 * sqrt T)).
Proof. intros HT. apply derivable_pt_lim_scal, derivable_pt_lim_sqrt. exact HT. Qed.

(* ------------------------------------------------------------------ *)
(** ** Rounding *)

Lemma Int_part_spec (y : R) (n : Z) : IZR n <= y < IZR n + 1 -> Int_part y = n.
Proof.
  intros [H1 H2]. unfold Int_part.
  rewrite <- (up_tech y n H1) by (rewrite plus_IZR; exact H2). ring.
Qed.

Lemma round_half_even_shift (y : R) (k : Z) :
  Z.even k = true -> round_half_even (y + IZR k) = (round_half_even y + k)%Z.
Proof.
  intros Hk. unfold round_half_even.
  destruct (base_Int_part y) as [H1 H2].
  assert (Hn : Int_part (y + IZR k) = (Int_part y + k)%Z).
  { apply Int_part_spec. rewrite plus_IZR. lra. }
  rewrite Hn, plus_IZR.
  replace (y + IZR k - (IZR (Int_part y) + IZR k)) with (y - IZR (Int_part y)) by ring.
  rewrite Z.even_add, Hk.
  destruct (Rlt_dec _ _); [reflexivity|].
  destruct (Rlt_dec _ _); [ring|].
  destruct (Z.even (Int_part y)); simpl; ring.
Qed.

Lemma round4_minus_1 (x : R) : round4 (x - 1) = round4 x - 1.
Proof.
  unfold round4.
  replace ((x - 1) * 10000) with (x * 10000 + IZR (-10000)) by ring.
  rewrite round_half_even_shift by reflexivity.
  rewrite plus_IZR. field.
Qed.

Lemma round4_nonneg (x : R) : 0 <= x -> 0 <= round4 x.
Proof.
  intros Hx. unfold round4.
  pose proof (round_half_even_bound (x * 10000)) as H.
  assert (Hz : (-1 < round_half_even (x * 10000))%Z).
  { apply lt_IZR. unfold Rabs in H. destruct (Rcase_abs _) in H; lra. }
  assert (0 <= IZR (round_half_even (x * 10000))) by (apply IZR_le; lia).
  unfold Rdiv. apply Rmult_le_pos; lra.
Qed.

Lemma round_half_even_mono (y1 y2 : R) :
  y1 <= y2 -> (round_half_even y1 <= round_half_even y2)%Z.
Proof.
  intros H12.
  destruct (Z_le_gt_dec (round_half_even y1) (round_half_even y2)) as [|Hgt]; [assumption|].
  exfalso.
  destruct (Req_dec y1 y2) as [E | E]; [subst; lia|].
  pose proof (round_half_even_bound y1) as B1.
  pose proof (round_half_even_bound y2) as B2.
  apply Z.gt_lt, Zlt_le_succ in Hgt. apply IZR_le in Hgt. rewrite succ_IZR in Hgt.
  unfold Rabs in B1, B2.
  destruct (Rcase_abs _) in B1; destruct (Rcase_abs _) in B2; lra.
Qed.

Lemma round4_mono (x1 x2 : R) : x1 <= x2 -> round4 x1 <= round4 x2.
Proof.
  intros H. unfold round4, Rdiv.
  apply Rmult_le_compat_r; [lra|]. apply IZR_le, round_half_even_mono. lra.
Qed.

Lemma round_half_even_IZR (z : Z) : round_half_even (IZR z) = z.
Proof.
  unfold round_half_even.
  rewrite (Int_part_spec (IZR z) z) by lra.
  destruct (Rlt_dec _ _); [reflexivity | lra].
Qed.

Lemma round4_fixed (z : Z) : round4 (IZR z / 10000) = IZR z / 10000.
Proof.
  unfold round4. replace (IZR z / 10000 * 10000) with (IZR z) by field.
  rewrite round_half_even_IZR. reflexivity.
Qed.

(* ------------------------------------------------------------------ *)
(** ** Solver results *)

(** [brentq] returns a point of its bracket [[a, b]] when it returns. *)
Definition brentq_in_bracket (brentq : (R -> pyres R) -> R -> R -> pyres R) : Prop :=
  forall f a b x, a <= b -> brentq f a b = Ok x -> a <= x <= b.

Lemma exact_brentq_in_bracket : brentq_in_bracket exact_brentq.
Proof.
  intros f a b x _. unfold exact_brentq.
  destruct (excluded_middle_informative _) as [H | H]; [|discriminate].
  destruct (constructive_indefinite_description _ H) as [y [Hy Hy0]]. simpl.
  intros E. injection E as <-. exact Hy.
Qed.

Lemma iv_body_result (brentq : (R -> pyres R) -> R -> R -> pyres R)
    (price : R -> pyres R) (mp v : R) :
  brentq_in_bracket brentq ->
  iv_body brentq price mp = Ok (Some v) ->
  exists x, 0.0001 <= x <= 3.0 /\ v = round4 x.
Proof.
  intros Hb. unfold iv_body.
  destruct (price 0.0001) as [lo | e]; cbn [pybind];
    [|destruct e; cbn [except_value_error]; discriminate].
  destruct (price 3.0) as [hi | e]; cbn [pybind];
    [|destruct e; cbn [except_value_error]; discriminate].
  destruct (Rle_dec lo mp); [|cbn [except_value_error]; discriminate].
  destruct (Rle_dec mp hi); [|cbn [except_value_error]; discriminate].
  destruct (brentq _ 0.0001 3.0) as [x | e] eqn:E; cbn [pybind];
    [|destruct e; cbn [except_value_error]; discriminate].
  cbn [except_value_error]. intros H. injection H as <-.
  exists x. split; [|reflexivity].
  eapply Hb; [|exact E]. lra.
Qed.

Lemma calculate_greeks_ok (m o : string) (S K T r sigma : R) d :
  calculate_greeks m S K T r sigma o = Ok d ->
  exists de ga ve th rh, d = greeks_dict de ga ve th rh.
Proof.
  unfold calculate_greeks, calculate_greeks_bs, calculate_greeks_black76, py_div.
  destruct (String.eqb m "spot"); [|destruct (String.eqb m "futures"); [|discriminate]];
    (destruct (Req_EM_T K 0); [discriminate|]); cbn [pybind];
    (destruct (String.eqb o "call"); [|destruct (String.eqb o "put"); [|discriminate]]);
    cbn [pybind]; intros H; injection H as <-; do 5 eexists; reflexivity.
Qed.

(* ================================================================== *)
(** ** streamlit_App.py: the Calculate handler and the stored positions

    [st.session_state.positions] is a list of dicts; a stored position is an
    association list in insertion order, its values being strings, numbers
    or dates ([datetime.date] as a day number).  The widget values are the
    fields of [form]; [today] is [datetime.date.today()] as a day number. *)

(** Cells of a stored position. *)
Inductive cell : Type :=
| CStr (s : string)
| CNum (x : R)
| CDate (d : Z).

Definition position : Type := list (string * cell).

(** [position[key]], [None] for a missing key. *)
Definition cell_get (key : string) (p : position) : option cell :=
  match find (fun kv => String.eqb (fst kv) key) p with
  | Some (_, v) => Some v
  | None => None
  end.

(** [d[k] = v]: an existing key keeps its place, a new key goes last. *)
Fixpoint dict_set (d : position) (k : string) (v : cell) : position :=
  match d with
  | [] => [(k, v)]
  | (k', v') :: d' => if String.eqb k' k then (k, v) :: d' else (k', v') :: dict_set d' k v
  end.

(** [d.update(u)] *)
Definition dict_update (d u : position) : position :=
  fold_left (fun acc kv => dict_set acc (fst kv) (snd kv)) u d.

(** [round(x, 2)], half to even like [round4]. *)
Definition round2 (x : R) : R := IZR (round_half_even (x * 100)) / 100.

(** The input widgets read by the handler. *)
Record form : Type := {
  f_instrument : string;
  f_option_type : string;
  f_S_or_F : R;
  f_K : R;
  f_book : string;
  f_product_code : string;
  f_r : R;
  f_entry_price : R;
  f_entry_date : Z;
  f_expiry_date : Z;
  f_market_price : R;
  f_sigma : R
}.

(** [model_type = "spot" if instrument == "stocks" else "futures"] *)
Definition model_type_of (instrument : string) : string :=
  if String.eqb instrument "stocks" then "spot" else "futures".

(** [T = (expiry_date - today).days / 365] *)
Definition time_to_expiry (expiry_date today : Z) : R := IZR (expiry_date - today) / 365.

Section App.

Variable brentq : (R -> pyres R) -> R -> R -> pyres R.

(** The body of [if st.button("Calculate"):], from the positions before
    to the positions after.  [use_iv = market_price > 0]; [if iv:] is false
    for [None] and for [0.0].  An exception escaping the handler ends the
    script run, and the stored positions stay as they were. *)
Definition calculate (f : form) (today : Z) (positions : list position)
    : pyres (list position) :=
  let use_iv := if Rlt_dec 0 (f_market_price f) then true else false in
  let T := time_to_expiry (f_expiry_date f) today in
  if Rle_dec T 0 then Ok positions
  else
    let model_type := model_type_of (f_instrument f) in
    let* sigma :=
      (if use_iv then
         let* iv := get_implied_volatility brentq model_type (f_market_price f) (f_S_or_F f)
                      (f_K f) T (f_r f) (f_option_type f) in
         Ok (match iv with
             | Some v => if Req_EM_T v 0 then 0.2 else v
             | None => 0.2
             end)
       else Ok (f_sigma f)) in
    let* model_price := price_option model_type (f_S_or_F f) (f_K f) T (f_r f) sigma
                          (f_option_type f) in
    let pnl := model_price - f_entry_price f in
    let* greeks := calculate_greeks model_type (f_S_or_F f) (f_K f) T (f_r f) sigma
                     (f_option_type f) in
    let status := if Z.gtb (f_expiry_date f) today then "Open" else "Closed" in
    let position : position :=
      [("Book", CStr (f_book f)); ("Product Code", CStr (f_product_code f));
       ("Instrument", CStr (f_instrument f)); ("Type", CStr (f_option_type f));
       ("Strike", CNum (f_K f)); ("Entry Date", CDate (f_entry_date f));
       ("Expiry Date", CDate (f_expiry_date f)); ("Entry Price", CNum (f_entry_price f));
       ("Model Price", CNum (round2 model_price)); ("PnL", CNum (round2 pnl));
       ("Status", CStr status)] in
    Ok (positions ++ [dict_update position (map (fun kv => (fst kv, CNum (snd kv))) greeks)])%list.

(** A script run: a click of Calculate, or of Clear All Positions. *)
Inductive event : Type :=
| Calculate (f : form) (today : Z)
| ClearAll.

Definition step (positions : list position) (e : event) : list position :=
  match e with
  | Calculate f today =>
      match calculate f today positions with
      | Ok positions' => positions'
      | Raise _ => positions
      end
  | ClearAll => []
  end.

(** The session starts with [st.session_state.positions = []]. *)
Definition run (events : list event) : list position := fold_left step events [].

End App.

Definition position_keys : list string :=
  ["Book"; "Product Code"; "Instrument"; "Type"; "Strike"; "Entry Date"; "Expiry Date";
   "Entry Price"; "Model Price"; "PnL"; "Status"; "Delta"; "Gamma"; "Vega"; "Theta"; "Rho"].

Lemma calculate_cases brentq f today ps ps' :
  calculate brentq f today ps = Ok ps' ->
  (f_expiry_date f <= today)%Z /\ ps' = ps \/
  (today < f_expiry_date f)%Z /\
  exists p, ps' = (ps ++ [p])%list /\ map fst p = position_keys /\
            cell_get "Status" p = Some (CStr "Open").
Proof.
  unfold calculate, time_to_expiry.
  destruct (Rle_dec (IZR (f_expiry_date f - today) / 365) 0) as [HT | HT].
  - intros H. injection H as <-. left. split; [|reflexivity].
    assert (IZR (f_expiry_date f - today) <= 0) by lra.
    apply le_IZR in H. lia.
  - assert (Hd : (today < f_expiry_date f)%Z).
    { assert (0 < IZR (f_expiry_date f - today)) by lra. apply lt_IZR in H. lia. }
    assert (Hs : Z.gtb (f_expiry_date f) today = true) by (apply Z.gtb_lt; lia).
    rewrite Hs. intros H.
    repeat match type of H with
           | context [pybind ?c _] =>
               let E := fresh "E" in
               destruct c eqn:E; cbn [pybind] in H; [|discriminate H]
           end.
    match goal with
    | E : calculate_greeks _ _ _ _ _ _ _ = Ok _ |- _ =>
        apply calculate_greeks_ok in E; destruct E as (de & ga & ve & th & rh & ->)
    end.
    injection H as <-. right. split; [exact Hd|].
    eexists; split; [reflexivity | split; reflexivity].
Qed.

Lemma time_to_expiry_pos (e t : Z) : (t < e)%Z -> 0 < time_to_expiry e t.
Proof.
  intros H. unfold time_to_expiry. apply Rdiv_lt_0_compat; [|lra].
  apply IZR_lt. lia.
Qed.

Lemma time_to_expiry_nonpos (e t : Z) : (e <= t)%Z -> time_to_expiry e t <= 0.
Proof.
  intros H. unfold time_to_expiry.
  assert (IZR (e - t) <= 0) by (apply IZR_le; lia). unfold Rdiv.
  assert (0 < / 365) by (apply Rinv_0_lt_compat; lra). nra.
Qed.

Lemma model_type_of_cases (i : string) :
  model_type_of i = "spot" \/ model_type_of i = "futures".
Proof. unfold model_type_of. destruct (String.eqb i "stocks"); auto. Qed.

Lemma zero_strike_helper (brentq : (R -> pyres R) -> R -> R -> pyres R)
    (m o : string) (S T r sigma mp : R) :
  m = "spot" \/ m = "futures" ->
  price_option m S 0 T r sigma o = Raise ZeroDivisionError /\
  calculate_greeks m S 0 T r sigma o = Raise ZeroDivisionError /\
  get_implied_volatility brentq m mp S 0 T r o = Raise ZeroDivisionError.
Proof.
  intros [-> | ->];
    unfold price_option, calculate_greeks, get_implied_volatility; py_step;
    unfold implied_volatility, implied_volatility_black76, iv_body,
      black_scholes, black_76, calculate_greeks_bs, calculate_greeks_black76;
    rewrite py_div_zero; repeat split.
Qed.

Lemma price_option_some (m o : string) (S K T r sigma : R) :
  m = "spot" \/ m = "futures" -> o = "call" \/ o = "put" -> K <> 0 ->
  exists p, price_option m S K T r sigma o = Ok p.
Proof.
  intros Hm Ho HK.
  destruct Hm as [-> | ->]; destruct Ho as [-> | ->];
    unfold price_option, black_scholes, black_76; py_step; rewrite py_div_ok by exact HK;
    cbn [pybind]; eexists; reflexivity.
Qed.

Lemma calculate_greeks_some (m o : string) (S K T r sigma : R) :
  m = "spot" \/ m = "futures" -> o = "call" \/ o = "put" -> K <> 0 ->
  exists de ga ve th rh,
    calculate_greeks m S K T r sigma o = Ok (greeks_dict de ga ve th rh).
Proof.
  intros Hm Ho HK.
  destruct Hm as [-> | ->]; destruct Ho as [-> | ->];
    unfold calculate_greeks, calculate_greeks_bs, calculate_greeks_black76; py_step;
    rewrite py_div_ok by exact HK; cbn [pybind]; do 5 eexists; reflexivity.
Qed.

(** Once the volatility is settled, the handler appends one position whose
    model price and Greeks are those at that volatility. *)
Lemma calculate_stored brentq (f : form) (today : Z) (ps : list position) (sig mp : R)
    (de ga ve th rh : R) :
  (today < f_expiry_date f)%Z ->
  (if Rlt_dec 0 (f_market_price f) then
     let* iv := get_implied_volatility brentq (model_type_of (f_instrument f))
                  (f_market_price f) (f_S_or_F f) (f_K f)
                  (time_to_expiry (f_expiry_date f) today) (f_r f) (f_option_type f) in
     Ok (match iv with
         | Some v => if Req_EM_T v 0 then 0.2 else v
         | None => 0.2
         end)
   else Ok (f_sigma f)) = Ok sig ->
  price_option (model_type_of (f_instrument f)) (f_S_or_F f) (f_K f)
    (time_to_expiry (f_expiry_date f) today) (f_r f) sig (f_option_type f) = Ok mp ->
  calculate_greeks (model_type_of (f_instrument f)) (f_S_or_F f) (f_K f)
    (time_to_expiry (f_expiry_date f) today) (f_r f) sig (f_option_type f)
  = Ok (greeks_dict de ga ve th rh) ->
  exists p, calculate brentq f today ps = Ok (ps ++ [p])%list /\
    cell_get "Model Price" p = Some (CNum (round2 mp)) /\
    cell_get "PnL" p = Some (CNum (round2 (mp - f_entry_price f))) /\
    cell_get "Delta" p = Some (CNum (round4 de)) /\
    cell_get "Gamma" p = Some (CNum (round4 ga)) /\
    cell_get "Vega" p = Some (CNum (round4 ve)) /\
    cell_get "Theta" p = Some (CNum (round4 th)) /\
    cell_get "Rho" p = Some (CNum (round4 rh)).
Proof.
  intros Hd Hs Hp Hg. unfold calculate. cbv zeta.
  destruct (Rle_dec (time_to_expiry (f_expiry_date f) today) 0) as [N|_];
    [exfalso; pose proof (time_to_expiry_pos _ _ Hd); lra|].
  assert (Hst : Z.gtb (f_expiry_date f) today = true) by (apply Z.gtb_lt; lia).
  destruct (Rlt_dec 0 (f_market_price f)); cbv beta iota in *;
    rewrite Hs; cbn [pybind]; rewrite Hp; cbn [pybind]; rewrite Hg; cbn [pybind];
    rewrite Hst; eexists; split; [reflexivity | repeat split | reflexivity | repeat split].
Qed.

(* ------------------------------------------------------------------ *)
(** ** streamlit_App.py: Copy Sheet

    The pandas and openpyxl calls are parameters.  [openpyxl] and [BytesIO]
    are looked up as globals of the script: a name bound neither at module
    level nor among Python's builtins raises [NameError]. *)

Inductive app_exn : Type :=
| NameError (name : string)
| LibraryError (msg : string).

Inductive appres (A : Type) : Type :=
| AOk (a : A)
| ARaise (e : app_exn).

Arguments AOk {A} a.

Arguments ARaise {A} e.

Definition abind {A B : Type} (c : appres A) (k : A -> appres B) : appres B :=
  match c with
  | AOk a => k a
  | ARaise e => ARaise e
  end.

(** Every name the script binds at module level (imports, assignments,
    loop and [except] variables). *)
Definition app_globals : list string :=
  ["st"; "datetime"; "pd"; "price_option"; "calculate_greeks"; "get_implied_volatility";
   "col1"; "col2"; "instrument"; "option_type"; "S_or_F"; "K"; "book"; "product_code"; "r";
   "entry_price"; "entry_date"; "expiry_date"; "market_price"; "use_iv"; "sigma"; "today";
   "T"; "model_type"; "iv"; "model_price"; "pnl"; "greeks"; "g"; "v"; "status"; "position";
   "df"; "selected_book"; "selected_status"; "source_file"; "target_file"; "source_sheet";
   "target_sheet"; "source_df"; "wb"; "ws"; "r_idx"; "row"; "c_idx"; "value"; "output"; "e"].

Inductive copy_outcome : Type :=
| CopySuccess
| CopyError (e : app_exn)
| CopyWarning.

Section CopySheet.

Variables file frame workbook buffer : Type.

Variable is_builtin : string -> bool.

Variable read_excel : file -> string -> appres frame.

Variable fill_workbook : string -> file -> string -> frame -> appres workbook.

Variable save_to_buffer : string -> workbook -> appres buffer.

(** A global name lookup; [is_builtin] is Python's builtins namespace. *)
Definition load_name (x : string) : appres string :=
  if (existsb (String.eqb x) app_globals || is_builtin x)%bool then AOk x else ARaise (NameError x).

(** The body of [if st.button("Copy Sheet"):]: [st.success] for
    [CopySuccess], [st.error] inside [except Exception] for [CopyError],
    [st.warning] for [CopyWarning].  An uploaded file is truthy, a sheet name
    is truthy when nonempty. *)
Definition copy_sheet (source_file target_file : option file)
    (source_sheet target_sheet : string) : copy_outcome :=
  match source_file, target_file with
  | Some sf, Some tf =>
      if (negb (String.eqb source_sheet "") && negb (String.eqb target_sheet ""))%bool then
        match abind (read_excel sf source_sheet) (fun source_df =>
              abind (load_name "openpyxl") (fun openpyxl =>
              abind (fill_workbook openpyxl tf target_sheet source_df) (fun wb =>
              abind (load_name "BytesIO") (fun BytesIO =>
              save_to_buffer BytesIO wb)))) with
        | AOk _ => CopySuccess
        | ARaise e => CopyError e
        end
      else CopyWarning
  | _, _ => CopyWarning
  end.

End CopySheet.

(** Sample inputs of the Calculate handler: a call on a stock at 100,
    expiring in 365 days, with rate 0. *)
Definition sample_form (K market_price : R) : form := {|
  f_instrument := "stocks"; f_option_type := "call"; f_S_or_F := 100; f_K := K;
  f_book := "Book 1"; f_product_code := "EQ-CALL"; f_r := 0; f_entry_price := 10;
  f_entry_date := 0; f_expiry_date := 365; f_market_price := market_price; f_sigma := 0.2 |}.

Lemma sample_price_pos :
  exists mp, price_option "spot" 100 100 (time_to_expiry 365 0) 0 0.2 "call" = Ok mp /\ 0 < mp.
Proof.
  pose proof (time_to_expiry_pos 365 0 ltac:(lia)) as HT.
  set (T := time_to_expiry 365 0) in *.
  pose proof (sqrt_pos_lt T HT) as Hs.
  unfold price_option; py_step.
  rewrite (proj1 (black_scholes_core 100 100 T 0 0.2 ltac:(lra) ltac:(lra) HT ltac:(lra))).
  eexists; split; [reflexivity|].
  replace (- 0 * T) with 0 by ring. rewrite exp_0, Rmult_1_r.
  unfold bs_core. replace (100 / 100) with 1 by field. rewrite ln_1.
  replace (0 / (0.2 * sqrt T)) with 0 by (field; lra).
  pose proof (norm_cdf_lt (0 - 0.2 * sqrt T / 2) (0 + 0.2 * sqrt T / 2) ltac:(lra)). lra.
Qed.

(* ================================================================== *)
(** * Claims *)

(** C1: for S, F, K, T, sigma > 0 and any r, the spot-model price is the
    dividendless Black-Scholes closed form and the futures-model price is
    the Black-76 closed form, for calls and puts. *)
Theorem price_option_closed_forms (S F K T r sigma : R) :
  0 < S -> 0 < F -> 0 < K -> 0 < T -> 0 < sigma ->
  (let d1 := (ln (S / K) + (r + 0.5 * sigma ^ 2) * T) / (sigma * sqrt T) in
   let d2 := d1 - sigma * sqrt T in
   price_option "spot" S K T r sigma "call"
     = Ok (S * norm_cdf d1 - K * exp (- r * T) * norm_cdf d2) /\
   price_option "spot" S K T r sigma "put"
     = Ok (K * exp (- r * T) * norm_cdf (- d2) - S * norm_cdf (- d1))) /\
  (let d1 := (ln (F / K) + 0.5 * sigma ^ 2 * T) / (sigma * sqrt T) in
   let d2 := d1 - sigma * sqrt T in
   let df := exp (- r * T) in
   price_option "futures" F K T r sigma "call"
     = Ok (df * (F * norm_cdf d1 - K * norm_cdf d2)) /\
   price_option "futures" F K T r sigma "put"
     = Ok (df * (K * norm_cdf (- d2) - F * norm_cdf (- d1)))).
Proof.
  intros HS HF HK HT Hs.
  unfold price_option, black_scholes, black_76.
  rewrite !py_div_ok by lra. py_step. cbv zeta.
  repeat split.
Qed.

Lemma price_option_closed_forms_witness :
  let d1 := (ln (100 / 100) + (0.05 + 0.5 * 0.2 ^ 2) * 1) / (0.2 * sqrt 1) in
  let d2 := d1 - 0.2 * sqrt 1 in
  price_option "spot" 100 100 1 0.05 0.2 "call"
    = Ok (100 * norm_cdf d1 - 100 * exp (- (0.05) * 1) * norm_cdf d2).
Proof.
  exact (proj1 (proj1 (price_option_closed_forms 100 100 100 1 0.05 0.2
                         ltac:(lra) ltac:(lra) ltac:(lra) ltac:(lra) ltac:(lra)))).
Defined.

(** C3: put-call parity.  For identical parameters (S or F, K, T > 0,
    sigma > 0, any r), call minus put is exactly [S - K e^(-rT)] in the spot
    model and [df (F - K)] in the futures model (so within any tolerance). *)
Theorem put_call_parity (S F K T r sigma : R) :
  0 < S -> 0 < F -> 0 < K -> 0 < T -> 0 < sigma ->
  (exists c p, price_option "spot" S K T r sigma "call" = Ok c /\
               price_option "spot" S K T r sigma "put" = Ok p /\
               c - p = S - K * exp (- r * T)) /\
  (exists c p, price_option "futures" F K T r sigma "call" = Ok c /\
               price_option "futures" F K T r sigma "put" = Ok p /\
               c - p = exp (- r * T) * (F - K)).
Proof.
  intros HS HF HK HT Hs.
  unfold price_option, black_scholes, black_76.
  rewrite !py_div_ok by lra. py_step.
  split; (do 2 eexists; split; [reflexivity | split; [reflexivity|]]);
    rewrite !norm_cdf_opp; ring.
Qed.

Lemma put_call_parity_witness :
  exists c p, price_option "spot" 100 100 1 0.05 0.2 "call" = Ok c /\
              price_option "spot" 100 100 1 0.05 0.2 "put" = Ok p /\
              c - p = 100 - 100 * exp (- (0.05) * 1).
Proof.
  exact (proj1 (put_call_parity 100 100 100 1 0.05 0.2
                  ltac:(lra) ltac:(lra) ltac:(lra) ltac:(lra) ltac:(lra))).
Defined.

(** C4: for a recognised model and option type, T > 0 and positive
    underlying and strike, the solver returns [None] when the market price
    is strictly below the price at sigma = 0.0001 or strictly above the
    price at sigma = 3.0, and otherwise proceeds to [brentq] on
    [price(sigma) - market_price] over [[0.0001, 3.0]]. *)
Theorem iv_bracket_check (brentq : (R -> pyres R) -> R -> R -> pyres R)
    (m o : string) (S K T r mp : R) :
  m = "spot" \/ m = "futures" -> o = "call" \/ o = "put" ->
  0 < S -> 0 < K -> 0 < T ->
  exists lo hi,
    price_option m S K T r 0.0001 o = Ok lo /\
    price_option m S K T r 3.0 o = Ok hi /\
    ((mp < lo \/ hi < mp) -> get_implied_volatility brentq m mp S K T r o = Ok None) /\
    (lo <= mp <= hi ->
     get_implied_volatility brentq m mp S K T r o
     = except_value_error
         (let* implied_vol :=
            brentq (fun sigma => let* p := price_option m S K T r sigma o in Ok (p - mp))
                   0.0001 3.0 in
          Ok (Some (round4 implied_vol)))).
Proof.
  intros Hm Ho HS HK HT.
  destruct (price_option_affine m o S K T r Hm Ho HS HK HT)
    as (al & be & A & B & _ & _ & _ & Hpr).
  pose proof (Hpr 0.0001 ltac:(lra)) as Hlo.
  pose proof (Hpr 3.0 ltac:(lra)) as Hhi.
  do 2 eexists. split; [exact Hlo|]. split; [exact Hhi|].
  rewrite get_implied_volatility_body by exact Hm.
  exact (iv_body_bracket brentq (fun sigma => price_option m S K T r sigma o) mp _ _ Hlo Hhi).
Qed.

Lemma iv_bracket_check_witness :
  exists lo hi,
    price_option "spot" 100 100 1 0.05 0.0001 "call" = Ok lo /\
    price_option "spot" 100 100 1 0.05 3.0 "call" = Ok hi /\
    ((1000 < lo \/ hi < 1000) ->
     get_implied_volatility exact_brentq "spot" 1000 100 100 1 0.05 "call" = Ok None) /\
    (lo <= 1000 <= hi ->
     get_implied_volatility exact_brentq "spot" 1000 100 100 1 0.05 "call"
     = except_value_error
         (let* implied_vol :=
            exact_brentq (fun sigma => let* p := price_option "spot" 100 100 1 0.05 sigma "call" in
                                     Ok (p - 1000)) 0.0001 3.0 in
          Ok (Some (round4 implied_vol)))).
Proof.
  exact (iv_bracket_check exact_brentq "spot" "call" 100 100 1 0.05 1000
           (or_introl eq_refl) (or_introl eq_refl) ltac:(lra) ltac:(lra) ltac:(lra)).
Defined.

(** C5: an [option_type] outside {call, put} or a [model] outside
    {spot, futures} makes both [price_option] and [calculate_greeks] raise;
    they never return a value.  For a parameter set of the data model
    (strike positive, in particular non-zero) the exception is
    [ValueError]. *)
Theorem invalid_enum_raises (m o : string) (S K T r sigma : R) :
  (m <> "spot" /\ m <> "futures") \/ (o <> "call" /\ o <> "put") ->
  (exists e, price_option m S K T r sigma o = Raise e) /\
  (exists e, calculate_greeks m S K T r sigma o = Raise e) /\
  (K <> 0 ->
   price_option m S K T r sigma o = Raise ValueError /\
   calculate_greeks m S K T r sigma o = Raise ValueError).
Proof.
  intros Hinv.
  unfold price_option, calculate_greeks.
  destruct (String.eqb m "spot") eqn:Es; [|destruct (String.eqb m "futures") eqn:Ef].
  1,2: assert (Ho : o <> "call" /\ o <> "put")
         by (destruct Hinv as [[H1 H2] | H]; [|exact H];
             exfalso; first [ apply H1; apply String.eqb_eq; assumption
                            | apply H2; apply String.eqb_eq; assumption ]);
       destruct Ho as [Hc Hp];
       apply String.eqb_neq in Hc, Hp;
       unfold black_scholes, black_76, calculate_greeks_bs, calculate_greeks_black76, py_div;
       destruct (Req_EM_T K 0); cbn [pybind]; rewrite ?Hc, ?Hp;
       (split; [eexists; reflexivity | split; [eexists; reflexivity | ]]);
       intros HK; first [contradiction | split; reflexivity].
  - split; [eexists; reflexivity | split; [eexists; reflexivity | ]].
    intros _. split; reflexivity.
Qed.

Lemma invalid_enum_raises_witness :
  price_option "spot" 100 100 1 0.05 0.2 "straddle" = Raise ValueError /\
  calculate_greeks "spot" 100 100 1 0.05 0.2 "straddle" = Raise ValueError.
Proof.
  refine (proj2 (proj2 (invalid_enum_raises "spot" "straddle" 100 100 1 0.05 0.2
                          (or_intror (conj _ _)))) _);
    [ intro H; discriminate H | intro H; discriminate H | lra ].
Defined.

(** C9: for S (or F), K, T > 0 and any r, the call and put prices of both
    models are strictly increasing in sigma on sigma > 0. *)
Theorem price_strictly_increasing_in_sigma (m o : string) (S K T r s1 s2 : R) :
  m = "spot" \/ m = "futures" -> o = "call" \/ o = "put" ->
  0 < S -> 0 < K -> 0 < T -> 0 < s1 -> s1 < s2 ->
  exists p1 p2, price_option m S K T r s1 o = Ok p1 /\
                price_option m S K T r s2 o = Ok p2 /\ p1 < p2.
Proof. exact (price_option_sigma_lt m o S K T r s1 s2). Qed.

Lemma price_strictly_increasing_in_sigma_witness :
  exists p1 p2, price_option "futures" 100 100 1 0.05 0.1 "put" = Ok p1 /\
                price_option "futures" 100 100 1 0.05 0.2 "put" = Ok p2 /\ p1 < p2.
Proof.
  exact (price_strictly_increasing_in_sigma "futures" "put" 100 100 1 0.05 0.1 0.2
           (or_intror eq_refl) (or_intror eq_refl)
           ltac:(lra) ltac:(lra) ltac:(lra) ltac:(lra) ltac:(lra)).
Defined.

(** C8: round trip.  For a recognised model and option type, positive
    underlying, strike and T, and sigma0 in (0.0001, 3.0), feeding the price
    at sigma0 back to the solver returns a volatility within 1e-4 of sigma0,
    for a root finder with brentq's documented guarantee
    ([brentq_contract]). *)
Theorem implied_volatility_round_trip (brentq : (R -> pyres R) -> R -> R -> pyres R)
    (m o : string) (S K T r sigma0 p : R) :
  brentq_contract brentq ->
  m = "spot" \/ m = "futures" -> o = "call" \/ o = "put" ->
  0 < S -> 0 < K -> 0 < T -> 0.0001 < sigma0 < 3.0 ->
  price_option m S K T r sigma0 o = Ok p ->
  exists v, get_implied_volatility brentq m p S K T r o = Ok (Some v) /\
            Rabs (v - sigma0) <= 0.0001.
Proof. exact (iv_round_trip brentq m o S K T r sigma0 p). Qed.

Lemma implied_volatility_round_trip_witness :
  let d1 := (ln (100 / 100) + (0.05 + 0.5 * 0.2 ^ 2) * 1) / (0.2 * sqrt 1) in
  let d2 := d1 - 0.2 * sqrt 1 in
  let p := 100 * norm_cdf d1 - 100 * exp (- (0.05) * 1) * norm_cdf d2 in
  exists v, get_implied_volatility exact_brentq "spot" p 100 100 1 0.05 "call" = Ok (Some v) /\
            Rabs (v - 0.2) <= 0.0001.
Proof.
  intros d1 d2 p.
  apply (implied_volatility_round_trip exact_brentq "spot" "call" 100 100 1 0.05 0.2 p
           exact_brentq_contract (or_introl eq_refl) (or_introl eq_refl)
           ltac:(lra) ltac:(lra) ltac:(lra) ltac:(lra)).
  unfold price_option, black_scholes. rewrite py_div_ok by lra. py_step. reflexivity.
Defined.

Lemma greeks_dict_shape (delta gamma vega theta rho : R) :
  map fst (greeks_dict delta gamma vega theta rho)
    = ["Delta"; "Gamma"; "Vega"; "Theta"; "Rho"] /\
  Forall (fun kv => exists z : Z, snd kv = IZR z / 10000)
         (greeks_dict delta gamma vega theta rho).
Proof.
  split; [reflexivity|].
  repeat constructor; apply round4_decimals.
Qed.

(** C7: for a recognised model and option type and positive S, K, T and
    sigma, [calculate_greeks] returns a dict whose keys are exactly Delta,
    Gamma, Vega, Theta, Rho (in that order), every value being a number with
    at most four decimals, the output of [round(., 4)]. *)
Theorem greeks_five_keys_rounded (m o : string) (S K T r sigma : R) :
  m = "spot" \/ m = "futures" -> o = "call" \/ o = "put" ->
  0 < S -> 0 < K -> 0 < T -> 0 < sigma ->
  exists d, calculate_greeks m S K T r sigma o = Ok d /\
    map fst d = ["Delta"; "Gamma"; "Vega"; "Theta"; "Rho"] /\
    Forall (fun kv => exists z : Z, snd kv = IZR z / 10000) d.
Proof.
  intros Hm Ho HS HK HT Hs.
  destruct Hm as [-> | ->]; destruct Ho as [-> | ->];
    unfold calculate_greeks, calculate_greeks_bs, calculate_greeks_black76;
    rewrite py_div_ok by lra; py_step;
    (eexists; split; [reflexivity | apply greeks_dict_shape]).
Qed.

Lemma greeks_five_keys_rounded_witness :
  exists d, calculate_greeks "spot" 100 100 1 0.05 0.2 "call" = Ok d /\
    map fst d = ["Delta"; "Gamma"; "Vega"; "Theta"; "Rho"] /\
    Forall (fun kv => exists z : Z, snd kv = IZR z / 10000) d.
Proof.
  exact (greeks_five_keys_rounded "spot" "call" 100 100 1 0.05 0.2
           (or_introl eq_refl) (or_introl eq_refl)
           ltac:(lra) ltac:(lra) ltac:(lra) ltac:(lra)).
Defined.

(** C2 fails: at F = K = 1000, T = 1, r = 1, sigma = 2 (so d1 = 1, d2 = -1)
    the returned futures Theta(call) differs from the spot formula with F
    for S and df folded in, [(-F pdf(d1) sigma df/(2 sqrt T) - r K df cdf(d2))/365],
    by more than 0.2.  The code's rate term is [- r F cdf(d1) df], where the
    spot Theta and the futures Rho both use [K df cdf(d2)]. *)
Lemma black76_theta_call_counterexample :
  let d1 := (ln (1000 / 1000) + 0.5 * 2 ^ 2 * 1) / (2 * sqrt 1) in
  let d2 := d1 - 2 * sqrt 1 in
  let df := exp (- (1) * 1) in
  exists d v, calculate_greeks "futures" 1000 1000 1 1 2 "call" = Ok d /\
    dict_get "Theta" d = Some v /\
    v <> (- 1000 * norm_pdf d1 * 2 * df / (2 * sqrt 1) - 1 * 1000 * df * norm_cdf d2) / 365.
Proof.
  assert (Hd1 : (ln (1000 / 1000) + 0.5 * 2 ^ 2 * 1) / (2 * sqrt 1) = 1).
  { replace (1000 / 1000) with 1 by field. rewrite ln_1, sqrt_1, R_half. field. }
  assert (Hdf : / 3 <= exp (- (1) * 1)).
  { replace (- (1) * 1) with (- 1) by ring. apply exp_m1_lower. }
  cbv zeta. unfold calculate_greeks, calculate_greeks_black76.
  rewrite py_div_ok by lra. py_step.
  do 2 eexists. split; [reflexivity|]. split; [reflexivity|].
  rewrite Hd1, sqrt_1. replace (1 - 2 * 1) with (- 1) by ring.
  set (df := exp (- (1) * 1)) in *.
  match goal with |- round4 ?c <> _ => pose proof (round4_bound c) as Hr end.
  pose proof norm_cdf_gap as Hgap.
  assert (Hprod : / 3 * (2 / 9) <= df * (norm_cdf 1 - norm_cdf (- 1)))
    by (apply Rmult_le_compat; lra).
  intro Heq. rewrite Heq in Hr.
  unfold Rabs in Hr. destruct (Rcase_abs _) in Hr; lra.
Qed.

(** C10 (as the code has it): for a recognised model and an [option_type]
    outside {call, put}, the solver returns [None] when the strike is
    non-zero (the pricing function's [ValueError] is caught), while a zero
    strike makes [S / K] raise [ZeroDivisionError], which is not caught. *)
Theorem iv_invalid_option_type (brentq : (R -> pyres R) -> R -> R -> pyres R)
    (m o : string) (mp S K T r : R) :
  m = "spot" \/ m = "futures" -> o <> "call" /\ o <> "put" ->
  (K <> 0 -> get_implied_volatility brentq m mp S K T r o = Ok None) /\
  (K = 0 -> get_implied_volatility brentq m mp S K T r o = Raise ZeroDivisionError).
Proof.
  intros Hm [Hc Hp]. apply String.eqb_neq in Hc, Hp.
  rewrite get_implied_volatility_body by exact Hm.
  unfold iv_body.
  destruct Hm as [-> | ->]; unfold price_option; py_step;
    unfold black_scholes, black_76, py_div;
    (split; intros HK; destruct (Req_EM_T K 0); try contradiction;
     cbv beta iota; rewrite ?Hc, ?Hp; reflexivity).
Qed.

Lemma iv_invalid_option_type_witness :
  get_implied_volatility exact_brentq "spot" 10 100 100 1 0.05 "straddle" = Ok None.
Proof.
  refine (proj1 (iv_invalid_option_type exact_brentq "spot" "straddle" 10 100 100 1 0.05
                   (or_introl eq_refl) (conj _ _)) _);
    [ intro H; discriminate H | intro H; discriminate H | lra ].
Defined.

(** C10 fails at a zero strike: with model "spot", option_type "straddle"
    and K = 0 the solver raises [ZeroDivisionError] instead of returning
    [None]. *)
Lemma iv_invalid_option_type_counterexample :
  get_implied_volatility exact_brentq "spot" 1 100 0 1 0.05 "straddle"
  = Raise ZeroDivisionError.
Proof.
  unfold get_implied_volatility. py_step.
  unfold implied_volatility, iv_body, black_scholes. cbv beta.
  rewrite py_div_zero. reflexivity.
Qed.

(* ================================================================== *)
(** * Further properties of the code *)

(** X1: spot model.  For a call or a put and S, K, T, sigma > 0, the Delta
    returned by [calculate_greeks] is the derivative of the price in S,
    and the Gamma is the derivative of that Delta in S (each rounded to
    four decimals). *)
Theorem bs_delta_gamma (o : string) (S K T r sigma : R) :
  o = "call" \/ o = "put" ->
  0 < S -> 0 < K -> 0 < T -> 0 < sigma ->
  exists (P D : R -> R) (g : R),
    (forall S', 0 < S' -> price_option "spot" S' K T r sigma o = Ok (P S')) /\
    (forall S', 0 < S' -> derivable_pt_lim P S' (D S')) /\
    derivable_pt_lim D S g /\
    exists d, calculate_greeks "spot" S K T r sigma o = Ok d /\
      dict_get "Delta" d = Some (round4 (D S)) /\
      dict_get "Gamma" d = Some (round4 g).
Proof.
  intros Ho HS HK HT Hs.
  pose proof (exp_neg_pos r T) as Hdf.
  pose proof (sqrt_pos_lt T HT) as Ht.
  set (B := K * exp (- r * T)). set (s := sigma * sqrt T).
  assert (HB : 0 < B) by (unfold B; nra).
  assert (Hs' : 0 < s) by (unfold s; nra).
  set (D0 := fun y => norm_cdf (ln (y / B) / s + s / 2)).
  assert (Hg : derivable_pt_lim D0 S (norm_pdf (ln (S / B) / s + s / 2) / (S * s)))
    by (apply norm_cdf_d1_dA; assumption).
  assert (Hd1 : (ln (S / K) + (r + 0.5 * sigma ^ 2) * T) / (sigma * sqrt T)
                = ln (S / B) / s + s / 2) by (apply bs_d1; assumption).
  destruct Ho as [-> | ->].
  - exists (fun y => bs_core y B s), D0, (norm_pdf (ln (S / B) / s + s / 2) / (S * s)).
    split; [|split; [|split; [exact Hg|]]].
    + intros S' HS'. unfold price_option; py_step.
      exact (proj1 (black_scholes_core S' K T r sigma HS' HK HT Hs)).
    + intros S' HS'. apply bs_core_dA; assumption.
    + unfold calculate_greeks, calculate_greeks_bs. rewrite py_div_ok by lra. py_step.
      eexists; split; [reflexivity|]. cbv zeta.
      rewrite (proj1 (greeks_dict_get _ _ _ _ _)), (proj1 (proj2 (greeks_dict_get _ _ _ _ _))).
      rewrite Hd1. split; [reflexivity|]. do 2 f_equal. unfold s. field. lra.
  - exists (fun y => bs_core y B s + B - y), (fun y => D0 y - 1),
      (norm_pdf (ln (S / B) / s + s / 2) / (S * s)).
    split; [|split; [|split]].
    + intros S' HS'. unfold price_option; py_step.
      exact (proj2 (black_scholes_core S' K T r sigma HS' HK HT Hs)).
    + intros S' HS'.
      eapply dlim_eq; [|apply derivable_pt_lim_minus; [apply derivable_pt_lim_plus|]].
      3: apply derivable_pt_lim_const.
      3: apply derivable_pt_lim_id.
      2: apply bs_core_dA; assumption.
      unfold D0. ring.
    + eapply dlim_eq; [|apply (derivable_pt_lim_minus D0 (fun _ => 1)); [exact Hg | apply derivable_pt_lim_const]].
      ring.
    + unfold calculate_greeks, calculate_greeks_bs. rewrite py_div_ok by lra. py_step.
      eexists; split; [reflexivity|]. cbv zeta.
      rewrite (proj1 (greeks_dict_get _ _ _ _ _)), (proj1 (proj2 (greeks_dict_get _ _ _ _ _))).
      rewrite Hd1. split; [reflexivity|]. do 2 f_equal. unfold s. field. lra.
Qed.

Lemma bs_delta_gamma_witness :
  exists (P D : R -> R) (g : R),
    (forall S', 0 < S' -> price_option "spot" S' 100 1 0.05 0.2 "call" = Ok (P S')) /\
    (forall S', 0 < S' -> derivable_pt_lim P S' (D S')) /\
    derivable_pt_lim D 100 g /\
    exists d, calculate_greeks "spot" 100 100 1 0.05 0.2 "call" = Ok d /\
      dict_get "Delta" d = Some (round4 (D 100)) /\
      dict_get "Gamma" d = Some (round4 g).
Proof.
  exact (bs_delta_gamma "call" 100 100 1 0.05 0.2 (or_introl eq_refl)
           ltac:(lra) ltac:(lra) ltac:(lra) ltac:(lra)).
Defined.

(** X2: futures model.  For a call or a put and F, K, T, sigma > 0, the
    Delta returned by [calculate_greeks] is the derivative of the price in
    F, but the Gamma is the derivative of that Delta in F divided by the
    discount factor [exp(-rT)] (each rounded to four decimals). *)
Theorem b76_delta_gamma (o : string) (F K T r sigma : R) :
  o = "call" \/ o = "put" ->
  0 < F -> 0 < K -> 0 < T -> 0 < sigma ->
  exists (P D : R -> R) (g : R),
    (forall F', 0 < F' -> price_option "futures" F' K T r sigma o = Ok (P F')) /\
    (forall F', 0 < F' -> derivable_pt_lim P F' (D F')) /\
    derivable_pt_lim D F g /\
    exists d, calculate_greeks "futures" F K T r sigma o = Ok d /\
      dict_get "Delta" d = Some (round4 (D F)) /\
      dict_get "Gamma" d = Some (round4 (g / exp (- r * T))).
Proof.
  intros Ho HF HK HT Hs.
  pose proof (exp_neg_pos r T) as Hdf.
  pose proof (sqrt_pos_lt T HT) as Ht.
  set (df := exp (- r * T)) in *. set (s := sigma * sqrt T).
  assert (Hs' : 0 < s) by (unfold s; nra).
  set (D0 := fun y => norm_cdf (ln (y / K) / s + s / 2)).
  assert (Hg : derivable_pt_lim D0 F (norm_pdf (ln (F / K) / s + s / 2) / (F * s)))
    by (apply norm_cdf_d1_dA; assumption).
  assert (Hd1 : (ln (F / K) + 0.5 * sigma ^ 2 * T) / (sigma * sqrt T)
                = ln (F / K) / s + s / 2) by (apply b76_d1; assumption).
  destruct Ho as [-> | ->].
  - exists (fun y => df * bs_core y K s), (fun y => df * D0 y),
      (df * (norm_pdf (ln (F / K) / s + s / 2) / (F * s))).
    split; [|split; [|split]].
    + intros F' HF'. unfold price_option; py_step.
      exact (proj1 (black_76_core F' K T r sigma HF' HK HT Hs)).
    + intros F' HF'. apply derivable_pt_lim_scal. apply bs_core_dA; assumption.
    + apply derivable_pt_lim_scal. exact Hg.
    + unfold calculate_greeks, calculate_greeks_black76. rewrite py_div_ok by lra. py_step.
      eexists; split; [reflexivity|]. cbv zeta.
      rewrite (proj1 (greeks_dict_get _ _ _ _ _)), (proj1 (proj2 (greeks_dict_get _ _ _ _ _))).
      rewrite Hd1. split; [reflexivity|]. do 2 f_equal. unfold s. field. lra.
  - exists (fun y => df * (bs_core y K s + K - y)), (fun y => df * (D0 y - 1)),
      (df * (norm_pdf (ln (F / K) / s + s / 2) / (F * s))).
    split; [|split; [|split]].
    + intros F' HF'. unfold price_option; py_step.
      exact (proj2 (black_76_core F' K T r sigma HF' HK HT Hs)).
    + intros F' HF'. apply derivable_pt_lim_scal.
      eapply dlim_eq; [|apply derivable_pt_lim_minus; [apply derivable_pt_lim_plus|]].
      3: apply derivable_pt_lim_const.
      3: apply derivable_pt_lim_id.
      2: apply bs_core_dA; assumption.
      unfold D0. ring.
    + apply derivable_pt_lim_scal.
      eapply dlim_eq; [|apply (derivable_pt_lim_minus D0 (fun _ => 1)); [exact Hg | apply derivable_pt_lim_const]].
      ring.
    + unfold calculate_greeks, calculate_greeks_black76. rewrite py_div_ok by lra. py_step.
      eexists; split; [reflexivity|]. cbv zeta.
      rewrite (proj1 (greeks_dict_get _ _ _ _ _)), (proj1 (proj2 (greeks_dict_get _ _ _ _ _))).
      rewrite Hd1. split.
      * unfold D0. rewrite norm_cdf_opp. do 2 f_equal. unfold df. ring.
      * do 2 f_equal. unfold s. field. lra.
Qed.

Lemma b76_delta_gamma_witness :
  exists (P D : R -> R) (g : R),
    (forall F', 0 < F' -> price_option "futures" F' 100 1 0.05 0.2 "put" = Ok (P F')) /\
    (forall F', 0 < F' -> derivable_pt_lim P F' (D F')) /\
    derivable_pt_lim D 100 g /\
    exists d, calculate_greeks "futures" 100 100 1 0.05 0.2 "put" = Ok d /\
      dict_get "Delta" d = Some (round4 (D 100)) /\
      dict_get "Gamma" d = Some (round4 (g / exp (- (0.05) * 1))).
Proof.
  exact (b76_delta_gamma "put" 100 100 1 0.05 0.2 (or_intror eq_refl)
           ltac:(lra) ltac:(lra) ltac:(lra) ltac:(lra)).
Defined.

(** X3: for either model, a call or a put and S, K, T, sigma > 0, the Vega
    returned by [calculate_greeks] is the derivative of the price in sigma
    divided by 100, rounded to four decimals. *)
Theorem vega_derivative (m o : string) (S K T r sigma : R) :
  m = "spot" \/ m = "futures" -> o = "call" \/ o = "put" ->
  0 < S -> 0 < K -> 0 < T -> 0 < sigma ->
  exists (P : R -> R) (v : R),
    (forall sigma', 0 < sigma' -> price_option m S K T r sigma' o = Ok (P sigma')) /\
    derivable_pt_lim P sigma v /\
    exists d, calculate_greeks m S K T r sigma o = Ok d /\
      dict_get "Vega" d = Some (round4 (v / 100)).
Proof.
  intros Hm Ho HS HK HT Hs.
  pose proof (exp_neg_pos r T) as Hdf.
  pose proof (sqrt_pos_lt T HT) as Ht.
  assert (HB : 0 < K * exp (- r * T)) by nra.
  pose proof (bs_core_dsigma S (K * exp (- r * T)) T sigma HS HB HT Hs) as Dspot.
  pose proof (bs_core_dsigma S K T sigma HS HK HT Hs) as Dfut.
  pose proof (bs_d1 S K T r sigma HS HK HT Hs) as Hd1.
  pose proof (b76_d1 S K T sigma HS HK HT Hs) as Hd1'.
  destruct Hm as [-> | ->]; destruct Ho as [-> | ->].
  - exists (fun y => bs_core S (K * exp (- r * T)) (y * sqrt T)),
      (S * norm_pdf (ln (S / (K * exp (- r * T))) / (sigma * sqrt T) + sigma * sqrt T / 2) * sqrt T). split; [|split; [exact Dspot|]].
    + intros s' Hs'. unfold price_option; py_step.
      exact (proj1 (black_scholes_core S K T r s' HS HK HT Hs')).
    + unfold calculate_greeks, calculate_greeks_bs. rewrite py_div_ok by lra. py_step.
      eexists; split; [reflexivity|]. cbv zeta.
      rewrite (proj1 (proj2 (proj2 (greeks_dict_get _ _ _ _ _)))).
      rewrite Hd1. reflexivity.
  - exists (fun y => bs_core S (K * exp (- r * T)) (y * sqrt T) + K * exp (- r * T) - S),
      (S * norm_pdf (ln (S / (K * exp (- r * T))) / (sigma * sqrt T) + sigma * sqrt T / 2) * sqrt T). split; [|split].
    + intros s' Hs'. unfold price_option; py_step.
      exact (proj2 (black_scholes_core S K T r s' HS HK HT Hs')).
    + eapply dlim_eq; [|apply derivable_pt_lim_minus; [apply derivable_pt_lim_plus; [exact Dspot | apply derivable_pt_lim_const] | apply derivable_pt_lim_const]].
      ring.
    + unfold calculate_greeks, calculate_greeks_bs. rewrite py_div_ok by lra. py_step.
      eexists; split; [reflexivity|]. cbv zeta.
      rewrite (proj1 (proj2 (proj2 (greeks_dict_get _ _ _ _ _)))).
      rewrite Hd1. do 2 f_equal; unfold Rdiv; ring.
  - exists (fun y => exp (- r * T) * bs_core S K (y * sqrt T)),
      (exp (- r * T) * (S * norm_pdf (ln (S / K) / (sigma * sqrt T) + sigma * sqrt T / 2) * sqrt T)). split; [|split; [apply derivable_pt_lim_scal; exact Dfut|]].
    + intros s' Hs'. unfold price_option; py_step.
      exact (proj1 (black_76_core S K T r s' HS HK HT Hs')).
    + unfold calculate_greeks, calculate_greeks_black76. rewrite py_div_ok by lra. py_step.
      eexists; split; [reflexivity|]. cbv zeta.
      rewrite (proj1 (proj2 (proj2 (greeks_dict_get _ _ _ _ _)))).
      rewrite Hd1'. do 2 f_equal; unfold Rdiv; ring.
  - exists (fun y => exp (- r * T) * (bs_core S K (y * sqrt T) + K - S)),
      (exp (- r * T) * (S * norm_pdf (ln (S / K) / (sigma * sqrt T) + sigma * sqrt T / 2) * sqrt T)). split; [|split].
    + intros s' Hs'. unfold price_option; py_step.
      exact (proj2 (black_76_core S K T r s' HS HK HT Hs')).
    + apply derivable_pt_lim_scal.
      eapply dlim_eq; [|apply derivable_pt_lim_minus; [apply derivable_pt_lim_plus; [exact Dfut | apply derivable_pt_lim_const] | apply derivable_pt_lim_const]].
      ring.
    + unfold calculate_greeks, calculate_greeks_black76. rewrite py_div_ok by lra. py_step.
      eexists; split; [reflexivity|]. cbv zeta.
      rewrite (proj1 (proj2 (proj2 (greeks_dict_get _ _ _ _ _)))).
      rewrite Hd1'. do 2 f_equal; unfold Rdiv; ring.
Qed.

Lemma vega_derivative_witness :
  exists (P : R -> R) (v : R),
    (forall sigma', 0 < sigma' -> price_option "futures" 100 100 1 0.05 sigma' "call" = Ok (P sigma')) /\
    derivable_pt_lim P 0.2 v /\
    exists d, calculate_greeks "futures" 100 100 1 0.05 0.2 "call" = Ok d /\
      dict_get "Vega" d = Some (round4 (v / 100)).
Proof.
  exact (vega_derivative "futures" "call" 100 100 1 0.05 0.2 (or_intror eq_refl)
           (or_introl eq_refl) ltac:(lra) ltac:(lra) ltac:(lra) ltac:(lra)).
Defined.

(** X4: spot model.  For a call or a put and S, K, T, sigma > 0, the Theta
    returned by [calculate_greeks] is minus the derivative of the price in
    T divided by 365, rounded to four decimals. *)
Theorem bs_theta (o : string) (S K T r sigma : R) :
  o = "call" \/ o = "put" ->
  0 < S -> 0 < K -> 0 < T -> 0 < sigma ->
  exists (P : R -> R) (th : R),
    (forall T', 0 < T' -> price_option "spot" S K T' r sigma o = Ok (P T')) /\
    derivable_pt_lim P T th /\
    exists d, calculate_greeks "spot" S K T r sigma o = Ok d /\
      dict_get "Theta" d = Some (round4 (- th / 365)).
Proof.
  intros Ho HS HK HT Hs.
  pose proof (exp_neg_pos r T) as Hdf.
  pose proof (sqrt_pos_lt T HT) as Ht.
  set (B := K * exp (- r * T)). set (s := sigma * sqrt T).
  assert (HB : 0 < B) by (unfold B; nra).
  assert (Hs' : 0 < s) by (unfold s; nra).
  pose proof (bs_core_chain (fun _ => S) (fun y => K * exp (- r * y)) (fun y => sigma * sqrt y)
                T 0 (K * (exp (- r * T) * - r)) (sigma * / (2 * sqrt T)) HS HB Hs'
                (derivable_pt_lim_const S T) (dlim_disc_T K r T) (dlim_vol_T sigma T HT)) as D.
  cbv beta in D. fold B s in D.
  assert (Hd1 : (ln (S / K) + (r + 0.5 * sigma ^ 2) * T) / (sigma * sqrt T)
                = ln (S / B) / s + s / 2) by (apply bs_d1; assumption).
  assert (Hd2 : ln (S / B) / s + s / 2 - sigma * sqrt T = ln (S / B) / s - s / 2)
    by (unfold s; field; lra).
  destruct Ho as [-> | ->].
  - eexists (fun y => bs_core S (K * exp (- r * y)) (sigma * sqrt y)), _.
    split; [|split; [exact D|]].
    + intros T' HT'. unfold price_option; py_step.
      exact (proj1 (black_scholes_core S K T' r sigma HS HK HT' Hs)).
    + unfold calculate_greeks, calculate_greeks_bs. rewrite py_div_ok by lra. py_step.
      eexists; split; [reflexivity|]. cbv zeta.
      rewrite (proj1 (proj2 (proj2 (proj2 (greeks_dict_get _ _ _ _ _))))).
      rewrite Hd1, Hd2. do 2 f_equal. unfold B, s. field. lra.
  - eexists (fun y => bs_core S (K * exp (- r * y)) (sigma * sqrt y) + K * exp (- r * y) - S), _.
    split; [|split].
    + intros T' HT'. unfold price_option; py_step.
      exact (proj2 (black_scholes_core S K T' r sigma HS HK HT' Hs)).
    + apply derivable_pt_lim_minus; [apply derivable_pt_lim_plus; [exact D | apply dlim_disc_T] | apply derivable_pt_lim_const].
    + unfold calculate_greeks, calculate_greeks_bs. rewrite py_div_ok by lra. py_step.
      eexists; split; [reflexivity|]. cbv zeta.
      rewrite (proj1 (proj2 (proj2 (proj2 (greeks_dict_get _ _ _ _ _))))).
      rewrite Hd1, Hd2, norm_cdf_opp. do 2 f_equal. unfold B, s. field. lra.
Qed.

Lemma bs_theta_witness :
  exists (P : R -> R) (th : R),
    (forall T', 0 < T' -> price_option "spot" 100 100 T' 0.05 0.2 "call" = Ok (P T')) /\
    derivable_pt_lim P 1 th /\
    exists d, calculate_greeks "spot" 100 100 1 0.05 0.2 "call" = Ok d /\
      dict_get "Theta" d = Some (round4 (- th / 365)).
Proof.
  exact (bs_theta "call" 100 100 1 0.05 0.2 (or_introl eq_refl)
           ltac:(lra) ltac:(lra) ltac:(lra) ltac:(lra)).
Defined.

(** X5: spot model.  For a call or a put and S, K, T, sigma > 0, the Rho
    returned by [calculate_greeks] is the derivative of the price in r
    divided by 100, rounded to four decimals. *)
Theorem bs_rho (o : string) (S K T r sigma : R) :
  o = "call" \/ o = "put" ->
  0 < S -> 0 < K -> 0 < T -> 0 < sigma ->
  exists (P : R -> R) (rh : R),
    (forall r', price_option "spot" S K T r' sigma o = Ok (P r')) /\
    derivable_pt_lim P r rh /\
    exists d, calculate_greeks "spot" S K T r sigma o = Ok d /\
      dict_get "Rho" d = Some (round4 (rh / 100)).
Proof.
  intros Ho HS HK HT Hs.
  pose proof (exp_neg_pos r T) as Hdf.
  pose proof (sqrt_pos_lt T HT) as Ht.
  set (B := K * exp (- r * T)). set (s := sigma * sqrt T).
  assert (HB : 0 < B) by (unfold B; nra).
  assert (Hs' : 0 < s) by (unfold s; nra).
  pose proof (bs_core_chain (fun _ => S) (fun y => K * exp (- y * T)) (fun _ => s)
                r 0 (K * (exp (- r * T) * - T)) 0 HS HB Hs'
                (derivable_pt_lim_const S r) (dlim_disc_r K r T) (derivable_pt_lim_const s r)) as D.
  cbv beta in D. fold B in D.
  assert (Hd1 : (ln (S / K) + (r + 0.5 * sigma ^ 2) * T) / (sigma * sqrt T)
                = ln (S / B) / s + s / 2) by (apply bs_d1; assumption).
  assert (Hd2 : ln (S / B) / s + s / 2 - sigma * sqrt T = ln (S / B) / s - s / 2)
    by (unfold s; field; lra).
  destruct Ho as [-> | ->].
  - eexists (fun y => bs_core S (K * exp (- y * T)) s), _.
    split; [|split; [exact D|]].
    + intros r'. unfold price_option; py_step.
      exact (proj1 (black_scholes_core S K T r' sigma HS HK HT Hs)).
    + unfold calculate_greeks, calculate_greeks_bs. rewrite py_div_ok by lra. py_step.
      eexists; split; [reflexivity|]. cbv zeta.
      rewrite (proj2 (proj2 (proj2 (proj2 (greeks_dict_get _ _ _ _ _))))).
      rewrite Hd1, Hd2. do 2 f_equal. unfold B, s. field.
  - eexists (fun y => bs_core S (K * exp (- y * T)) s + K * exp (- y * T) - S), _.
    split; [|split].
    + intros r'. unfold price_option; py_step.
      exact (proj2 (black_scholes_core S K T r' sigma HS HK HT Hs)).
    + apply derivable_pt_lim_minus; [apply derivable_pt_lim_plus; [exact D | apply dlim_disc_r] | apply derivable_pt_lim_const].
    + unfold calculate_greeks, calculate_greeks_bs. rewrite py_div_ok by lra. py_step.
      eexists; split; [reflexivity|]. cbv zeta.
      rewrite (proj2 (proj2 (proj2 (proj2 (greeks_dict_get _ _ _ _ _))))).
      rewrite Hd1, Hd2, norm_cdf_opp. do 2 f_equal. unfold B, s. field.
Qed.

Lemma bs_rho_witness :
  exists (P : R -> R) (rh : R),
    (forall r', price_option "spot" 100 100 1 r' 0.2 "put" = Ok (P r')) /\
    derivable_pt_lim P 0.05 rh /\
    exists d, calculate_greeks "spot" 100 100 1 0.05 0.2 "put" = Ok d /\
      dict_get "Rho" d = Some (round4 (rh / 100)).
Proof.
  exact (bs_rho "put" 100 100 1 0.05 0.2 (or_intror eq_refl)
           ltac:(lra) ltac:(lra) ltac:(lra) ltac:(lra)).
Defined.

(** X6: futures model.  The derivative of the price in r is [-T * price],
    while the returned Rho is that derivative plus [T F df cdf(d1)] (call)
    or minus [T F df cdf(-d1)] (put), divided by 100 and rounded. *)
Theorem b76_rho (F K T r sigma : R) :
  0 < F -> 0 < K -> 0 < T -> 0 < sigma ->
  let d1 := (ln (F / K) + 0.5 * sigma ^ 2 * T) / (sigma * sqrt T) in
  let df := exp (- r * T) in
  (exists P : R -> R,
     (forall r', price_option "futures" F K T r' sigma "call" = Ok (P r')) /\
     derivable_pt_lim P r (- T * P r) /\
     exists d, calculate_greeks "futures" F K T r sigma "call" = Ok d /\
       dict_get "Rho" d = Some (round4 ((- T * P r + T * F * df * norm_cdf d1) / 100))) /\
  (exists P : R -> R,
     (forall r', price_option "futures" F K T r' sigma "put" = Ok (P r')) /\
     derivable_pt_lim P r (- T * P r) /\
     exists d, calculate_greeks "futures" F K T r sigma "put" = Ok d /\
       dict_get "Rho" d = Some (round4 ((- T * P r - T * F * df * norm_cdf (- d1)) / 100))).
Proof.
  intros HF HK HT Hs d1 df.
  assert (Hdisc : derivable_pt_lim (fun y => exp (- y * T)) r (- T * exp (- r * T))).
  { apply (derivable_pt_lim_ext (fun y => 1 * exp (- y * T))); [intro; ring|].
    eapply dlim_eq; [|apply (dlim_disc_r 1 r T)]. ring. }
  assert (Hd2 : d1 - sigma * sqrt T = ln (F / K) / (sigma * sqrt T) - sigma * sqrt T / 2).
  { unfold d1. rewrite b76_d1 by assumption. field.
    pose proof (sqrt_pos_lt T HT). split; apply Rgt_not_eq; nra. }
  assert (Hd1 : d1 = ln (F / K) / (sigma * sqrt T) + sigma * sqrt T / 2)
    by (unfold d1; apply b76_d1; assumption).
  split.
  - exists (fun y => exp (- y * T) * bs_core F K (sigma * sqrt T)).
    split; [|split].
    + intros r'. unfold price_option; py_step.
      exact (proj1 (black_76_core F K T r' sigma HF HK HT Hs)).
    + eapply dlim_eq; [|apply (derivable_pt_lim_scal_right _ _ _ _ Hdisc)]. ring.
    + unfold calculate_greeks, calculate_greeks_black76. rewrite py_div_ok by lra. py_step.
      eexists; split; [reflexivity|]. cbv zeta.
      rewrite (proj2 (proj2 (proj2 (proj2 (greeks_dict_get _ _ _ _ _))))).
      fold d1 df. rewrite Hd2. unfold bs_core. rewrite <- Hd1.
      do 2 f_equal. unfold Rdiv. ring.
  - exists (fun y => exp (- y * T) * (bs_core F K (sigma * sqrt T) + K - F)).
    split; [|split].
    + intros r'. unfold price_option; py_step.
      exact (proj2 (black_76_core F K T r' sigma HF HK HT Hs)).
    + eapply dlim_eq; [|apply (derivable_pt_lim_scal_right _ _ _ _ Hdisc)]. ring.
    + unfold calculate_greeks, calculate_greeks_black76. rewrite py_div_ok by lra. py_step.
      eexists; split; [reflexivity|]. cbv zeta.
      rewrite (proj2 (proj2 (proj2 (proj2 (greeks_dict_get _ _ _ _ _))))).
      fold d1 df. rewrite Hd2. unfold bs_core. rewrite <- Hd1, !norm_cdf_opp.
      do 2 f_equal. unfold Rdiv. ring.
Qed.

Lemma b76_rho_witness :
  exists P : R -> R,
    (forall r', price_option "futures" 100 100 1 r' 0.2 "call" = Ok (P r')) /\
    derivable_pt_lim P 0.05 (- 1 * P 0.05) /\
    exists d, calculate_greeks "futures" 100 100 1 0.05 0.2 "call" = Ok d /\
      dict_get "Rho" d
        = Some (round4 ((- 1 * P 0.05 + 1 * 100 * exp (- (0.05) * 1)
                         * norm_cdf ((ln (100 / 100) + 0.5 * 0.2 ^ 2 * 1) / (0.2 * sqrt 1)))
                        / 100)).
Proof.
  exact (proj1 (b76_rho 100 100 1 0.05 0.2 ltac:(lra) ltac:(lra) ltac:(lra) ltac:(lra))).
Defined.

(** X7: for S, K, T, sigma > 0, the rounded spot Deltas of a call and a
    put differ by exactly 1; the rounded futures Deltas differ by the
    discount factor [exp(-rT)] up to 1e-4. *)
Theorem delta_call_put (S K T r sigma : R) :
  0 < S -> 0 < K -> 0 < T -> 0 < sigma ->
  (exists dc dp a b,
     calculate_greeks "spot" S K T r sigma "call" = Ok dc /\
     calculate_greeks "spot" S K T r sigma "put" = Ok dp /\
     dict_get "Delta" dc = Some a /\ dict_get "Delta" dp = Some b /\ a - b = 1) /\
  (exists dc dp a b,
     calculate_greeks "futures" S K T r sigma "call" = Ok dc /\
     calculate_greeks "futures" S K T r sigma "put" = Ok dp /\
     dict_get "Delta" dc = Some a /\ dict_get "Delta" dp = Some b /\
     Rabs (a - b - exp (- r * T)) <= / 10000).
Proof.
  intros HS HK HT Hs.
  unfold calculate_greeks, calculate_greeks_bs, calculate_greeks_black76.
  rewrite py_div_ok by lra. py_step. cbv zeta.
  split; do 4 eexists; (split; [reflexivity|]); (split; [reflexivity|]);
    (split; [apply greeks_dict_get|]); (split; [apply greeks_dict_get|]).
  - rewrite round4_minus_1. ring.
  - set (df := exp (- r * T)).
    set (x := df * norm_cdf ((ln (S / K) + 0.5 * sigma ^ 2 * T) / (sigma * sqrt T))).
    replace (- df * norm_cdf (- ((ln (S / K) + 0.5 * sigma ^ 2 * T) / (sigma * sqrt T))))
      with (x - df) by (unfold x; rewrite norm_cdf_opp; ring).
    pose proof (round4_bound x) as H1. pose proof (round4_bound (x - df)) as H2.
    replace (round4 x - round4 (x - df) - df)
      with ((round4 x - x) - (round4 (x - df) - (x - df))) by ring.
    eapply Rle_trans; [apply Rabs_triang|]. rewrite Rabs_Ropp. lra.
Qed.

Lemma delta_call_put_witness :
  (exists dc dp a b,
     calculate_greeks "spot" 100 100 1 0.05 0.2 "call" = Ok dc /\
     calculate_greeks "spot" 100 100 1 0.05 0.2 "put" = Ok dp /\
     dict_get "Delta" dc = Some a /\ dict_get "Delta" dp = Some b /\ a - b = 1) /\
  (exists dc dp a b,
     calculate_greeks "futures" 100 100 1 0.05 0.2 "call" = Ok dc /\
     calculate_greeks "futures" 100 100 1 0.05 0.2 "put" = Ok dp /\
     dict_get "Delta" dc = Some a /\ dict_get "Delta" dp = Some b /\
     Rabs (a - b - exp (- (0.05) * 1)) <= / 10000).
Proof.
  exact (delta_call_put 100 100 1 0.05 0.2 ltac:(lra) ltac:(lra) ltac:(lra) ltac:(lra)).
Defined.

(** X8: for either model and S, K, T, sigma > 0, a call and a put with the
    same inputs get the same Gamma and the same Vega, and both are
    nonnegative. *)
Theorem gamma_vega_call_put (m : string) (S K T r sigma : R) :
  m = "spot" \/ m = "futures" ->
  0 < S -> 0 < K -> 0 < T -> 0 < sigma ->
  exists dc dp g v,
    calculate_greeks m S K T r sigma "call" = Ok dc /\
    calculate_greeks m S K T r sigma "put" = Ok dp /\
    dict_get "Gamma" dc = Some g /\ dict_get "Gamma" dp = Some g /\
    dict_get "Vega" dc = Some v /\ dict_get "Vega" dp = Some v /\
    0 <= g /\ 0 <= v.
Proof.
  intros Hm HS HK HT Hs.
  pose proof (sqrt_pos_lt T HT) as Ht. pose proof (exp_neg_pos r T) as Hdf.
  destruct Hm as [-> | ->];
    unfold calculate_greeks, calculate_greeks_bs, calculate_greeks_black76;
    rewrite py_div_ok by lra; py_step; cbv zeta;
    do 4 eexists; (split; [reflexivity|]); (split; [reflexivity|]);
    (split; [apply greeks_dict_get|]); (split; [apply greeks_dict_get|]);
    (split; [apply greeks_dict_get|]); (split; [apply greeks_dict_get|]);
    split; apply round4_nonneg.
  all: unfold Rdiv; match goal with |- context [norm_pdf ?u] => pose proof (norm_pdf_pos u) end.
  all: apply Rmult_le_pos.
  all: try lra.
  - apply Rlt_le. apply Rinv_0_lt_compat. repeat apply Rmult_lt_0_compat; lra.
  - apply Rlt_le. repeat (apply Rmult_lt_0_compat; [|assumption]). assumption.
  - apply Rlt_le. apply Rinv_0_lt_compat. repeat apply Rmult_lt_0_compat; lra.
  - apply Rlt_le. repeat (apply Rmult_lt_0_compat; [|assumption]). assumption.
Qed.

Lemma gamma_vega_call_put_witness :
  exists dc dp g v,
    calculate_greeks "spot" 100 100 1 0.05 0.2 "call" = Ok dc /\
    calculate_greeks "spot" 100 100 1 0.05 0.2 "put" = Ok dp /\
    dict_get "Gamma" dc = Some g /\ dict_get "Gamma" dp = Some g /\
    dict_get "Vega" dc = Some v /\ dict_get "Vega" dp = Some v /\
    0 <= g /\ 0 <= v.
Proof.
  exact (gamma_vega_call_put "spot" 100 100 1 0.05 0.2 (or_introl eq_refl)
           ltac:(lra) ltac:(lra) ltac:(lra) ltac:(lra)).
Defined.

(** X9: with a zero strike, [price_option], [calculate_greeks] and
    [get_implied_volatility] all raise [ZeroDivisionError] for either model,
    whatever the option type and the other inputs. *)
Theorem zero_strike_raises (brentq : (R -> pyres R) -> R -> R -> pyres R)
    (m o : string) (S T r sigma mp : R) :
  m = "spot" \/ m = "futures" ->
  price_option m S 0 T r sigma o = Raise ZeroDivisionError /\
  calculate_greeks m S 0 T r sigma o = Raise ZeroDivisionError /\
  get_implied_volatility brentq m mp S 0 T r o = Raise ZeroDivisionError.
Proof.
  intros [-> | ->];
    unfold price_option, calculate_greeks, get_implied_volatility; py_step;
    unfold implied_volatility, implied_volatility_black76, iv_body,
      black_scholes, black_76, calculate_greeks_bs, calculate_greeks_black76;
    rewrite py_div_zero; repeat split.
Qed.

Lemma zero_strike_raises_witness :
  price_option "spot" 100 0 1 0.05 0.2 "call" = Raise ZeroDivisionError /\
  calculate_greeks "spot" 100 0 1 0.05 0.2 "call" = Raise ZeroDivisionError /\
  get_implied_volatility exact_brentq "spot" 10 100 0 1 0.05 "call" = Raise ZeroDivisionError.
Proof. exact (zero_strike_raises exact_brentq "spot" "call" 100 1 0.05 0.2 10 (or_introl eq_refl)). Defined.

(** X10: when the root finder returns points of its bracket, a volatility
    returned by [get_implied_volatility] lies in [[0.0001, 3.0]] and has at
    most four decimals. *)
Theorem iv_result_range (brentq : (R -> pyres R) -> R -> R -> pyres R)
    (m o : string) (mp S K T r v : R) :
  brentq_in_bracket brentq ->
  get_implied_volatility brentq m mp S K T r o = Ok (Some v) ->
  0.0001 <= v <= 3.0 /\ exists z : Z, v = IZR z / 10000.
Proof.
  intros Hb Hv.
  assert (Hx : exists x, 0.0001 <= x <= 3.0 /\ v = round4 x).
  { unfold get_implied_volatility in Hv.
    destruct (String.eqb m "spot"); [|destruct (String.eqb m "futures"); [|discriminate]];
      exact (iv_body_result _ _ _ _ Hb Hv). }
  destruct Hx as (x & Hx & ->). split; [|apply round4_decimals].
  pose proof (round4_mono 0.0001 x ltac:(lra)) as H1.
  pose proof (round4_mono x 3.0 ltac:(lra)) as H2.
  replace 0.0001 with (IZR 1 / 10000) in * by lra.
  replace 3.0 with (IZR 30000 / 10000) in * by lra.
  rewrite round4_fixed in H1, H2. lra.
Qed.

Lemma iv_result_range_witness :
  let d1 := (ln (100 / 100) + (0.05 + 0.5 * 0.2 ^ 2) * 1) / (0.2 * sqrt 1) in
  let d2 := d1 - 0.2 * sqrt 1 in
  let p := 100 * norm_cdf d1 - 100 * exp (- (0.05) * 1) * norm_cdf d2 in
  exists v, get_implied_volatility exact_brentq "spot" p 100 100 1 0.05 "call" = Ok (Some v) /\
            0.0001 <= v <= 3.0 /\ exists z : Z, v = IZR z / 10000.
Proof.
  intros d1 d2 p.
  assert (Hp : price_option "spot" 100 100 1 0.05 0.2 "call" = Ok p).
  { unfold price_option, black_scholes. rewrite py_div_ok by lra. py_step. reflexivity. }
  destruct (iv_round_trip exact_brentq "spot" "call" 100 100 1 0.05 0.2 p exact_brentq_contract
              (or_introl eq_refl) (or_introl eq_refl) ltac:(lra) ltac:(lra) ltac:(lra)
              ltac:(lra) Hp) as (v & Hv & _).
  exists v. split; [exact Hv|].
  exact (iv_result_range exact_brentq "spot" "call" p 100 100 1 0.05 v
           exact_brentq_in_bracket Hv).
Defined.

(** X11: scaling the underlying and the strike by the same nonzero factor
    scales the price by that factor, for any model and option type; an
    exception is raised on both sides alike. *)
Theorem price_option_homogeneous (m o : string) (S K T r sigma lam : R) :
  lam <> 0 ->
  price_option m (lam * S) (lam * K) T r sigma o
  = (let* p := price_option m S K T r sigma o in Ok (lam * p)).
Proof.
  intros Hl.
  unfold price_option.
  destruct (String.eqb m "spot"); [|destruct (String.eqb m "futures")]; [| |reflexivity];
    unfold black_scholes, black_76, py_div;
    (destruct (Req_EM_T K 0) as [HK | HK];
     [subst K; rewrite Rmult_0_r; destruct (Req_EM_T 0 0); [reflexivity | contradiction]|]);
    (destruct (Req_EM_T (lam * K) 0) as [HK' | HK'];
     [exfalso; apply Rmult_integral in HK'; tauto|]);
    cbn [pybind];
    replace (lam * S / (lam * K)) with (S / K) by (field; auto);
    (destruct (String.eqb o "call"); [|destruct (String.eqb o "put")]);
    cbn [pybind]; try reflexivity; f_equal; ring.
Qed.

Lemma price_option_homogeneous_witness :
  price_option "futures" (2 * 50) (2 * 40) 1 0.05 0.2 "put"
  = (let* p := price_option "futures" 50 40 1 0.05 0.2 "put" in Ok (2 * p)).
Proof. exact (price_option_homogeneous "futures" "put" 50 40 1 0.05 0.2 2 ltac:(lra)). Defined.

(** X12: for S, K > 0, the futures-model price at the forward
    [F = S exp(rT)] equals the spot-model price at S, for any option type. *)
Theorem futures_at_forward (o : string) (S K T r sigma : R) :
  0 < S -> 0 < K ->
  price_option "futures" (S * exp (r * T)) K T r sigma o
  = price_option "spot" S K T r sigma o.
Proof.
  intros HS HK.
  pose proof (exp_pos (r * T)) as He.
  unfold price_option; py_step.
  unfold black_scholes, black_76. rewrite !py_div_ok by lra. cbn [pybind].
  replace (ln (S * exp (r * T) / K) + 0.5 * sigma ^ 2 * T)
    with (ln (S / K) + (r + 0.5 * sigma ^ 2) * T).
  2: { replace (S * exp (r * T) / K) with (S / K * exp (r * T)) by (field; lra).
       rewrite ln_mult, ln_exp by (try apply exp_pos; apply Rdiv_lt_0_compat; lra). ring. }
  assert (Hd : exp (- r * T) * exp (r * T) = 1).
  { rewrite <- exp_plus. replace (- r * T + r * T) with 0 by ring. apply exp_0. }
  destruct (String.eqb o "call"); [|destruct (String.eqb o "put")]; try reflexivity;
    f_equal.
  - transitivity (exp (- r * T) * exp (r * T) * S *
                    norm_cdf ((ln (S / K) + (r + 0.5 * sigma ^ 2) * T) / (sigma * sqrt T))
                  - K * exp (- r * T) *
                    norm_cdf ((ln (S / K) + (r + 0.5 * sigma ^ 2) * T) / (sigma * sqrt T) - sigma * sqrt T));
      [ring | rewrite Hd; ring].
  - transitivity (K * exp (- r * T) *
                    norm_cdf (- ((ln (S / K) + (r + 0.5 * sigma ^ 2) * T) / (sigma * sqrt T) - sigma * sqrt T))
                  - exp (- r * T) * exp (r * T) * S *
                    norm_cdf (- ((ln (S / K) + (r + 0.5 * sigma ^ 2) * T) / (sigma * sqrt T))));
      [ring | rewrite Hd; ring].
Qed.

Lemma futures_at_forward_witness :
  price_option "futures" (100 * exp (0.05 * 1)) 100 1 0.05 0.2 "call"
  = price_option "spot" 100 100 1 0.05 0.2 "call".
Proof. exact (futures_at_forward "call" 100 100 1 0.05 0.2 ltac:(lra) ltac:(lra)). Defined.

(** X13: in any session (any sequence of Calculate and Clear All clicks),
    every stored position has the sixteen keys Book, ..., Status, Delta,
    Gamma, Vega, Theta, Rho in that order, and its Status is "Open". *)
Theorem session_positions_open brentq (events : list event) :
  Forall (fun p => map fst p = position_keys /\ cell_get "Status" p = Some (CStr "Open"))
         (run brentq events).
Proof.
  unfold run.
  assert (Hgen : forall ps,
    Forall (fun p => map fst p = position_keys /\ cell_get "Status" p = Some (CStr "Open")) ps ->
    Forall (fun p => map fst p = position_keys /\ cell_get "Status" p = Some (CStr "Open"))
           (fold_left (step brentq) events ps)).
  { induction events as [|e es IH]; intros ps Hps; [exact Hps|].
    simpl. apply IH. destruct e as [f today|]; simpl; [|constructor].
    destruct (calculate brentq f today ps) as [ps'|] eqn:E; [|exact Hps].
    destruct (calculate_cases brentq f today ps ps' E) as [[_ ->] | [_ (p & -> & Hk & Hst)]];
      [exact Hps|].
    apply Forall_app. split; [exact Hps|]. constructor; [split; assumption | constructor]. }
  apply Hgen. constructor.
Qed.

(** X14: the Calculate handler leaves the positions unchanged when the
    expiry date is not after today; otherwise, when it completes, it
    appends exactly one position, with the sixteen keys and Status "Open". *)
Theorem calculate_outcome brentq (f : form) (today : Z) (ps ps' : list position) :
  ((f_expiry_date f <= today)%Z -> calculate brentq f today ps = Ok ps) /\
  (calculate brentq f today ps = Ok ps' -> (today < f_expiry_date f)%Z ->
   exists p, ps' = (ps ++ [p])%list /\ map fst p = position_keys /\
             cell_get "Status" p = Some (CStr "Open")).
Proof.
  split.
  - intros H. unfold calculate.
    destruct (Rle_dec (time_to_expiry (f_expiry_date f) today) 0) as [|N];
      [reflexivity|].
    exfalso. apply N, time_to_expiry_nonpos, H.
  - intros E Hd. destruct (calculate_cases brentq f today ps ps' E) as [[H _] | [_ Hp]];
      [lia | exact Hp].
Qed.

Lemma calculate_outcome_witness :
  calculate exact_brentq (sample_form 100 0) 400 [] = Ok [].
Proof.
  exact (proj1 (calculate_outcome exact_brentq (sample_form 100 0) 400 [] [])
           ltac:(simpl; lia)).
Defined.

(** X15: with a zero strike and an expiry after today, the Calculate
    handler raises [ZeroDivisionError] and the stored positions stay as they
    were. *)
Theorem calculate_zero_strike brentq (f : form) (today : Z) (ps : list position) :
  f_K f = 0 -> (today < f_expiry_date f)%Z ->
  calculate brentq f today ps = Raise ZeroDivisionError /\
  step brentq ps (Calculate f today) = ps.
Proof.
  intros HK Hd.
  assert (Hc : calculate brentq f today ps = Raise ZeroDivisionError).
  { unfold calculate.
    destruct (Rle_dec (time_to_expiry (f_expiry_date f) today) 0) as [N|_];
      [exfalso; pose proof (time_to_expiry_pos _ _ Hd); lra|].
    cbv zeta. rewrite HK.
    destruct (zero_strike_helper brentq (model_type_of (f_instrument f)) (f_option_type f)
                (f_S_or_F f) (time_to_expiry (f_expiry_date f) today) (f_r f) (f_sigma f)
                (f_market_price f) (model_type_of_cases _)) as (Hp & _ & Hi).
    destruct (Rlt_dec 0 (f_market_price f)); cbv beta iota.
    - rewrite Hi. reflexivity.
    - cbn [pybind]. rewrite Hp. reflexivity. }
  split; [exact Hc|]. simpl. rewrite Hc. reflexivity.
Qed.

Lemma calculate_zero_strike_witness :
  calculate exact_brentq (sample_form 0 0) 0 [] = Raise ZeroDivisionError /\
  step exact_brentq [] (Calculate (sample_form 0 0) 0) = [].
Proof.
  exact (calculate_zero_strike exact_brentq (sample_form 0 0) 0 [] eq_refl ltac:(simpl; lia)).
Defined.

(** X16: when the market price is positive and is the price of a call or a
    put at some sigma0 in (0.0001, 3.0) (positive S and K, expiry after
    today), the handler stores the price at a volatility within 1e-4 of
    sigma0, rounded to two decimals, for a root finder with brentq's
    guarantee. *)
Theorem calculate_implied_vol brentq (f : form) (today : Z) (ps : list position) (sigma0 : R) :
  brentq_contract brentq ->
  f_option_type f = "call" \/ f_option_type f = "put" ->
  0 < f_S_or_F f -> 0 < f_K f -> (today < f_expiry_date f)%Z -> 0 < f_market_price f ->
  0.0001 < sigma0 < 3.0 ->
  price_option (model_type_of (f_instrument f)) (f_S_or_F f) (f_K f)
    (time_to_expiry (f_expiry_date f) today) (f_r f) sigma0 (f_option_type f)
  = Ok (f_market_price f) ->
  exists v mp p,
    Rabs (v - sigma0) <= 0.0001 /\
    price_option (model_type_of (f_instrument f)) (f_S_or_F f) (f_K f)
      (time_to_expiry (f_expiry_date f) today) (f_r f) v (f_option_type f) = Ok mp /\
    calculate brentq f today ps = Ok (ps ++ [p])%list /\
    cell_get "Model Price" p = Some (CNum (round2 mp)).
Proof.
  intros Hbq Ho HS HK Hd Hmp Hs0 Hp.
  pose proof (model_type_of_cases (f_instrument f)) as Hm.
  pose proof (time_to_expiry_pos _ _ Hd) as HT.
  destruct (iv_round_trip brentq _ _ _ _ _ _ sigma0 _ Hbq Hm Ho HS HK HT Hs0 Hp)
    as (v & Hv & Hvs).
  assert (Hvpos : 0 < v) by (unfold Rabs in Hvs; destruct (Rcase_abs (v - sigma0)); lra).
  destruct (price_option_some _ _ (f_S_or_F f) (f_K f) (time_to_expiry (f_expiry_date f) today)
              (f_r f) v Hm Ho ltac:(lra)) as (mp & Hmp').
  destruct (calculate_greeks_some _ _ (f_S_or_F f) (f_K f) (time_to_expiry (f_expiry_date f) today)
              (f_r f) v Hm Ho ltac:(lra)) as (de & ga & ve & th & rh & Hg).
  destruct (calculate_stored brentq f today ps v mp de ga ve th rh Hd) as (p & Hc & Hmodel & _);
    [| exact Hmp' | exact Hg |].
  - destruct (Rlt_dec 0 (f_market_price f)) as [_|N]; [|lra]. cbv beta iota.
    rewrite Hv. cbn [pybind]. destruct (Req_EM_T v 0); [lra | reflexivity].
  - exists v, mp, p. auto.
Qed.

Lemma calculate_implied_vol_witness :
  exists mp, 0 < mp /\
  exists v mp' p,
    Rabs (v - 0.2) <= 0.0001 /\
    price_option "spot" 100 100 (time_to_expiry 365 0) 0 v "call" = Ok mp' /\
    calculate exact_brentq (sample_form 100 mp) 0 [] = Ok ([] ++ [p])%list /\
    cell_get "Model Price" p = Some (CNum (round2 mp')).
Proof.
  destruct sample_price_pos as (mp & Hp & Hpos).
  exists mp. split; [exact Hpos|].
  exact (calculate_implied_vol exact_brentq (sample_form 100 mp) 0 [] 0.2 exact_brentq_contract
           (or_introl eq_refl) ltac:(simpl; lra) ltac:(simpl; lra) ltac:(simpl; lia)
           Hpos ltac:(lra) Hp).
Defined.

(** X17: for a call or a put with positive S and K and an expiry after
    today, a positive market price outside the range of prices at
    volatilities 0.0001 and 3.0 makes the handler price at the default
    volatility 0.2. *)
Theorem calculate_iv_fallback brentq (f : form) (today : Z) (ps : list position) :
  f_option_type f = "call" \/ f_option_type f = "put" ->
  0 < f_S_or_F f -> 0 < f_K f -> (today < f_expiry_date f)%Z ->
  exists lo hi mp p,
    price_option (model_type_of (f_instrument f)) (f_S_or_F f) (f_K f)
      (time_to_expiry (f_expiry_date f) today) (f_r f) 0.0001 (f_option_type f) = Ok lo /\
    price_option (model_type_of (f_instrument f)) (f_S_or_F f) (f_K f)
      (time_to_expiry (f_expiry_date f) today) (f_r f) 3.0 (f_option_type f) = Ok hi /\
    price_option (model_type_of (f_instrument f)) (f_S_or_F f) (f_K f)
      (time_to_expiry (f_expiry_date f) today) (f_r f) 0.2 (f_option_type f) = Ok mp /\
    (0 < f_market_price f -> (f_market_price f < lo \/ hi < f_market_price f) ->
     calculate brentq f today ps = Ok (ps ++ [p])%list /\
     cell_get "Model Price" p = Some (CNum (round2 mp))).
Proof.
  intros Ho HS HK Hd.
  pose proof (model_type_of_cases (f_instrument f)) as Hm.
  pose proof (time_to_expiry_pos _ _ Hd) as HT.
  set (T := time_to_expiry (f_expiry_date f) today) in *.
  set (m := model_type_of (f_instrument f)) in *.
  destruct (price_option_affine m (f_option_type f) (f_S_or_F f) (f_K f) T (f_r f) Hm Ho HS HK HT)
    as (al & be & A & B & _ & _ & _ & Hpr).
  pose proof (Hpr 0.0001 ltac:(lra)) as Hlo.
  pose proof (Hpr 3.0 ltac:(lra)) as Hhi.
  pose proof (Hpr 0.2 ltac:(lra)) as Hmid.
  destruct (calculate_greeks_some m (f_option_type f) (f_S_or_F f) (f_K f) T (f_r f) 0.2
              Hm Ho ltac:(lra)) as (de & ga & ve & th & rh & Hg).
  destruct (excluded_middle_informative
              (0 < f_market_price f /\
               (f_market_price f < al * bs_core A B (0.0001 * sqrt T) + be \/
                al * bs_core A B (3.0 * sqrt T) + be < f_market_price f))) as [Hout | Hin].
  - destruct (calculate_stored brentq f today ps 0.2 (al * bs_core A B (0.2 * sqrt T) + be) de ga ve th rh Hd) as (p & Hc & Hmodel & _);
      [| exact Hmid | exact Hg |].
    + destruct Hout as [Hpos Hout].
      destruct (Rlt_dec 0 (f_market_price f)) as [_|N]; [|lra]. cbv beta iota.
      rewrite get_implied_volatility_body by exact Hm.
      change (model_type_of (f_instrument f)) with m.
      change (time_to_expiry (f_expiry_date f) today) with T.
      rewrite (proj1 (iv_body_bracket brentq (fun sigma => price_option m (f_S_or_F f) (f_K f) T (f_r f) sigma (f_option_type f))
                        (f_market_price f) _ _ Hlo Hhi) Hout).
      reflexivity.
    + do 4 eexists. split; [exact Hlo|]. split; [exact Hhi|]. split; [exact Hmid|].
      intros _ _. split; [exact Hc | exact Hmodel].
  - do 4 eexists. split; [exact Hlo|]. split; [exact Hhi|]. split; [exact Hmid|].
    intros H1 H2. exfalso. exact (Hin (conj H1 H2)).
    Unshelve. exact [].
Qed.

Lemma calculate_iv_fallback_witness :
  exists lo hi mp p,
    price_option "spot" 100 100 (time_to_expiry 365 0) 0 0.0001 "call" = Ok lo /\
    price_option "spot" 100 100 (time_to_expiry 365 0) 0 3.0 "call" = Ok hi /\
    price_option "spot" 100 100 (time_to_expiry 365 0) 0 0.2 "call" = Ok mp /\
    (0 < 150 -> (150 < lo \/ hi < 150) ->
     calculate exact_brentq (sample_form 100 150) 0 [] = Ok ([] ++ [p])%list /\
     cell_get "Model Price" p = Some (CNum (round2 mp))).
Proof.
  exact (calculate_iv_fallback exact_brentq (sample_form 100 150) 0 [] (or_introl eq_refl)
           ltac:(simpl; lra) ltac:(simpl; lra) ltac:(simpl; lia)).
Defined.

(** X18: Copy Sheet never succeeds: [openpyxl] is never imported.  With both
    files and both sheet names given, it reports the exception of
    [pd.read_excel] or [NameError] for [openpyxl]. *)
Theorem copy_sheet_fails file frame workbook buffer (is_builtin : string -> bool)
    (read_excel : file -> string -> appres frame)
    (fill_workbook : string -> file -> string -> frame -> appres workbook)
    (save_to_buffer : string -> workbook -> appres buffer)
    (source_file target_file : option file) (source_sheet target_sheet : string) :
  is_builtin "openpyxl" = false ->
  copy_sheet file frame workbook buffer is_builtin read_excel fill_workbook save_to_buffer
    source_file target_file source_sheet target_sheet <> CopySuccess /\
  (forall sf tf, source_file = Some sf -> target_file = Some tf ->
   source_sheet <> "" -> target_sheet <> "" ->
   exists e, copy_sheet file frame workbook buffer is_builtin read_excel fill_workbook
               save_to_buffer source_file target_file source_sheet target_sheet = CopyError e /\
             (e = NameError "openpyxl" \/ read_excel sf source_sheet = ARaise e)).
Proof.
  intros Hb.
  assert (Hl : load_name is_builtin "openpyxl" = ARaise (NameError "openpyxl"))
    by (unfold load_name; rewrite Hb; reflexivity).
  assert (Hbody : forall sf tf,
    exists e, abind (read_excel sf source_sheet) (fun source_df =>
              abind (load_name is_builtin "openpyxl") (fun openpyxl =>
              abind (fill_workbook openpyxl tf target_sheet source_df) (fun wb =>
              abind (load_name is_builtin "BytesIO") (fun BytesIO =>
              save_to_buffer BytesIO wb)))) = ARaise e /\
              (e = NameError "openpyxl" \/ read_excel sf source_sheet = ARaise e)).
  { intros sf tf. rewrite Hl.
    destruct (read_excel sf source_sheet) as [df|e]; cbn [abind].
    - exists (NameError "openpyxl"). auto.
    - exists e. auto. }
  split.
  - unfold copy_sheet. destruct source_file as [sf|]; [|discriminate].
    destruct target_file as [tf|]; [|discriminate].
    destruct (negb _ && negb _)%bool; [|discriminate].
    destruct (Hbody sf tf) as (e & -> & _). discriminate.
  - intros sf tf -> -> Hs Ht. unfold copy_sheet.
    apply String.eqb_neq in Hs, Ht. rewrite Hs, Ht. cbn [negb andb].
    destruct (Hbody sf tf) as (e & -> & He). exists e. auto.
Qed.

Lemma copy_sheet_fails_witness :
  copy_sheet unit unit unit unit (fun _ => false) (fun _ _ => AOk tt) (fun _ _ _ _ => AOk tt)
    (fun _ _ => AOk tt) (Some tt) (Some tt) "Sheet1" "Sheet1" = CopyError (NameError "openpyxl").
Proof.
  destruct (proj2 (copy_sheet_fails unit unit unit unit (fun _ => false) (fun _ _ => AOk tt)
                     (fun _ _ _ _ => AOk tt) (fun _ _ => AOk tt) (Some tt) (Some tt)
                     "Sheet1" "Sheet1" eq_refl) tt tt eq_refl eq_refl
              ltac:(discriminate) ltac:(discriminate)) as (e & He & [-> | Hr]).
  - exact He.
  - discriminate Hr.
Defined.


